(** * The retrieval engine of the HR chatbot (backend/rag_system.py)

    A shallow embedding of [RAGSystem]: construction of the index, extraction
    of requirements from the query text, ranking, filtering and the synthesis
    of the chat response, followed by the properties of the engine.

    Conventions of the model.
    - A Python [str] is a [string] whose characters are the code points
      0..255; on that range [str.lower], [\d], [\s] and [str.strip] are
      modelled exactly.  Wider code points are outside the model; the one
      literal of the source that has some (the bullet of [_format_response])
      is carried as the bytes the source file holds.
    - The interpreter is Python 3.11 or later.  A Python [int] is a [Z];
      [int] of a run of digits is the number they write, and [ValueError]
      once the run is longer than 4300 digits; a member of an enumeration
      is formatted in an f-string as its class and name.  The numbers of
      an employee are taken to have at most 4300 digits, so that they can
      be formatted ([str] of a longer one raises as [int] does).  A
      similarity score ([numpy.float64]) is a rational [Q], so rounding is
      abstracted away.
    - A call that may raise returns a [Result]; an exception is the name of
      its Python class.
    - scikit-learn, sentence-transformers and numpy are not part of the
      repository.  The encoders and the cosine are variables of a section;
      of the vectorizer and of [cosine_similarity] the model keeps that they
      refuse an empty vocabulary and an array without rows.
      [numpy.argsort] returns the indices in ascending order of score and
      promises no order among equal scores; the model takes equal scores
      in index order, as numpy's insertion sort does on a short array, and
      the properties of the ranking are those of any ascending order. *)

From Stdlib Require Import List String Ascii ZArith QArith Bool Lia Arith.
From Stdlib Require Import Sorting.Sorted Sorting.Permutation.
From Stdlib Require Import Numbers.DecimalString.
Import ListNotations.

Local Open Scope string_scope.
Local Open Scope Z_scope.

(** ** Results and exceptions *)

Inductive exn : Type :=
| ValueError
| TypeError
| IndexError
| AttributeError.

Inductive Result (A : Type) : Type :=
| Ok (a : A)
| Raise (e : exn).

Arguments Ok {A} a.
Arguments Raise {A} e.

Definition bind {A B} (m : Result A) (f : A -> Result B) : Result B :=
  match m with
  | Ok a => f a
  | Raise e => Raise e
  end.

Notation "x <- m ;; k" := (bind m (fun x => k))
  (at level 61, m at next level, right associativity).
Notation "' pat <- m ;; k" := (bind m (fun x => match x with pat => k end))
  (at level 61, pat pattern, m at next level, right associativity).

(** [xs[i]] for an index that is not negative. *)
Definition getitem {A} (xs : list A) (i : nat) : Result A :=
  match nth_error xs i with
  | Some x => Ok x
  | None => Raise IndexError
  end.

(** ** Python strings *)

Module Py.

Definition code (c : ascii) : N := N_of_ascii c.

Definition between (lo hi : N) (c : ascii) : bool :=
  ((lo <=? code c) && (code c <=? hi))%N.

(** [str.lower] on one code point below 256: A-Z, and the upper-case
    letters of the Latin-1 block (U+00C0..U+00DE but the sign U+00D7). *)
Definition lower_char (c : ascii) : ascii :=
  if between 65 90 c then ascii_of_N (code c + 32)
  else if between 192 222 c && negb (code c =? 215)%N
       then ascii_of_N (code c + 32)
       else c.

Fixpoint lower (s : string) : string :=
  match s with
  | EmptyString => EmptyString
  | String c s' => String (lower_char c) (lower s')
  end.

(** [\d] of [re] on a [str]: the decimal digits (category Nd). *)
Definition is_digit (c : ascii) : bool := between 48 57 c.

(** [\s] of [re] on a [str], and [str.isspace]. *)
Definition is_space (c : ascii) : bool :=
  between 9 13 c || between 28 32 c || (code c =? 133)%N || (code c =? 160)%N.

(** [s.startswith(p)]. *)
Fixpoint startswith (p s : string) : bool :=
  match p with
  | EmptyString => true
  | String a p' =>
      match s with
      | EmptyString => false
      | String b s' => Ascii.eqb a b && startswith p' s'
      end
  end.

(** [needle in hay] for two strings. *)
Fixpoint contains (needle hay : string) : bool :=
  if startswith needle hay then true
  else match hay with
       | EmptyString => false
       | String _ hay' => contains needle hay'
       end.

(** [x in xs] for a list of strings. *)
Definition mem (x : string) (xs : list string) : bool :=
  existsb (String.eqb x) xs.

(** [sep.join(parts)]. *)
Fixpoint join (sep : string) (parts : list string) : string :=
  match parts with
  | [] => ""
  | [p] => p
  | p :: ps => p ++ sep ++ join sep ps
  end.

Fixpoint lstrip (s : string) : string :=
  match s with
  | EmptyString => EmptyString
  | String c s' => if is_space c then lstrip s' else s
  end.

Fixpoint rstrip (s : string) : string :=
  match s with
  | EmptyString => EmptyString
  | String c s' =>
      match rstrip s' with
      | EmptyString => if is_space c then EmptyString else String c EmptyString
      | t => String c t
      end
  end.

(** [s.strip()]. *)
Definition strip (s : string) : string := rstrip (lstrip s).

(** [str(n)] for an [int] of at most [max_str_digits] digits. *)
Definition str_of_int (n : Z) : string :=
  NilEmpty.string_of_int (Z.to_int n).

Definition digit_value (c : ascii) : Z := Z.of_N (code c) - 48.

Fixpoint int_of_digits_from (acc : Z) (s : string) : Z :=
  match s with
  | EmptyString => acc
  | String c s' => int_of_digits_from (10 * acc + digit_value c) s'
  end.

(** [sys.int_info.default_max_str_digits]: the longest run of digits that
    [int] converts. *)
Definition max_str_digits : Z := 4300.

(** [int(s)] for a string of decimal digits: the number they write, and
    [ValueError] for more digits than [max_str_digits]. *)
Definition int (s : string) : Result Z :=
  if max_str_digits <? Z.of_nat (String.length s) then Raise ValueError
  else Ok (int_of_digits_from 0 s).

(** [xs[:k]] for an [int] k: a negative k counts from the end. *)
Definition slice_to {A} (k : Z) (xs : list A) : list A :=
  if 0 <=? k then firstn (Z.to_nat k) xs
  else firstn (Z.to_nat (Z.of_nat (List.length xs) + k)) xs.

(** [len(xs)]. *)
Definition len {A} (xs : list A) : Z := Z.of_nat (List.length xs).

End Py.

(** ** The part of [re] the patterns use

    A backtracking matcher in continuation-passing style: quantifiers are
    greedy and give back what they took when the rest of the pattern fails,
    alternatives are tried from left to right, and [search] returns the
    match at the leftmost position that has one. *)

Module Re.

Inductive regex : Type :=
| Eps
| Lit (c : ascii)
| Cat (r1 r2 : regex)
| Alt (r1 r2 : regex)
| Opt (r : regex)
| Star (p : ascii -> bool)
| Plus (p : ascii -> bool)
| Group (n : nat) (r : regex).

(** The groups of a match, latest first. *)
Definition groups := list (nat * string).

Fixpoint star {R} (p : ascii -> bool) (s : string)
         (k : string -> option R) : option R :=
  match s with
  | String c s' =>
      if p c then
        match star p s' k with
        | Some m => Some m
        | None => k s
        end
      else k s
  | EmptyString => k s
  end.

Definition consumed (s rest : string) : string :=
  String.substring 0 (String.length s - String.length rest) s.

Fixpoint run (r : regex) (s : string) (g : groups)
         (k : string -> groups -> option groups) : option groups :=
  match r with
  | Eps => k s g
  | Lit c =>
      match s with
      | String c' s' => if Ascii.eqb c c' then k s' g else None
      | EmptyString => None
      end
  | Cat r1 r2 => run r1 s g (fun s' g' => run r2 s' g' k)
  | Alt r1 r2 =>
      match run r1 s g k with
      | Some m => Some m
      | None => run r2 s g k
      end
  | Opt r1 =>
      match run r1 s g k with
      | Some m => Some m
      | None => k s g
      end
  | Star p => star p s (fun s' => k s' g)
  | Plus p =>
      match s with
      | String c s' => if p c then star p s' (fun s'' => k s'' g) else None
      | EmptyString => None
      end
  | Group n r1 => run r1 s g (fun s' g' => k s' ((n, consumed s s') :: g'))
  end.

(** [re.match]: the pattern at the start of [s]. *)
Definition match_at (r : regex) (s : string) : option groups :=
  run r s [] (fun _ g => Some g).

(** [re.search]: the leftmost position at which the pattern matches. *)
Fixpoint search (r : regex) (s : string) : option groups :=
  match match_at r s with
  | Some m => Some m
  | None =>
      match s with
      | EmptyString => None
      | String _ s' => search r s'
      end
  end.

(** [m.group(n)]. *)
Fixpoint group (n : nat) (m : groups) : option string :=
  match m with
  | [] => None
  | (i, t) :: m' => if Nat.eqb i n then Some t else group n m'
  end.

(** A literal word of a pattern. *)
Fixpoint word (w : string) : regex :=
  match w with
  | EmptyString => Eps
  | String c w' => Cat (Lit c) (word w')
  end.

(** The parts of a pattern, in sequence. *)
Fixpoint cat (rs : list regex) : regex :=
  match rs with
  | [] => Eps
  | r :: rs' => Cat r (cat rs')
  end.

End Re.

(** ** The data model (backend/models.py) *)

Inductive AvailabilityStatus : Type := AVAILABLE | BUSY | ON_LEAVE.

(** The string a member of the enumeration is (it is a [str] too). *)
Definition value (a : AvailabilityStatus) : string :=
  match a with
  | AVAILABLE => "available"
  | BUSY => "busy"
  | ON_LEAVE => "on_leave"
  end.

Record Employee : Type := {
  id : Z;
  name : string;
  skills : list string;
  experience_years : Z;
  projects : list string;
  availability : AvailabilityStatus;
  department : option string;
  location : option string;
  specializations : option (list string)
}.

Record ChatResponse : Type := {
  response : string;
  matched_employees : list Employee;
  confidence_score : Q
}.

(** The dictionary [requirements] of [_extract_requirements]: its five keys. *)
Module Req.
Record t : Type := {
  skills : list string;
  experience : option Z;
  projects : list string;
  availability : option string;
  department : option string
}.
End Req.

(** ** Extraction of the requirements of a query *)

Import Re.

(** [(\d+)\+?\s*years?\s*(experience|exp)] *)
Definition exp_pattern_1 : regex :=
  cat [Group 1 (Plus Py.is_digit); Opt (Lit "+"); Star Py.is_space;
       word "year"; Opt (Lit "s"); Star Py.is_space;
       Group 2 (Alt (word "experience") (word "exp"))].

(** [with\s*(\d+)\+?\s*years?] *)
Definition exp_pattern_2 : regex :=
  cat [word "with"; Star Py.is_space; Group 1 (Plus Py.is_digit);
       Opt (Lit "+"); Star Py.is_space; word "year"; Opt (Lit "s")].

(** [(\d+)\s*years?\s*of\s*experience] *)
Definition exp_pattern_3 : regex :=
  cat [Group 1 (Plus Py.is_digit); Star Py.is_space; word "year";
       Opt (Lit "s"); Star Py.is_space; word "of"; Star Py.is_space;
       word "experience"].

Definition exp_patterns : list regex :=
  [exp_pattern_1; exp_pattern_2; exp_pattern_3].

Definition common_skills : list string :=
  ["python"; "javascript"; "java"; "react"; "angular"; "vue";
   "node"; "express"; "django"; "flask"; "fastapi";
   "aws"; "azure"; "gcp"; "docker"; "kubernetes";
   "machine learning"; "ml"; "ai"; "data science";
   "sql"; "postgresql"; "mongodb"; "redis";
   "html"; "css"; "typescript"; "go"; "rust";
   "tensorflow"; "pytorch"; "scikit-learn"].

(** [int(match.group(1))]; a group that took no part in the match is
    [None], which [int] refuses. *)
Definition int_group_1 (m : groups) : Result Z :=
  match group 1 m with
  | Some digits => Py.int digits
  | None => Raise TypeError
  end.

(** The loop over [exp_patterns]: the first pattern found decides. *)
Fixpoint extract_experience (patterns : list regex) (query_lower : string)
  : Result (option Z) :=
  match patterns with
  | [] => Ok None
  | pattern :: rest =>
      match search pattern query_lower with
      | Some m => n <- int_group_1 m ;; Ok (Some n)
      | None => extract_experience rest query_lower
      end
  end.

Definition extract_skills (query_lower : string) : list string :=
  filter (fun skill => Py.contains skill query_lower) common_skills.

Definition _extract_requirements (query : string) : Result Req.t :=
  experience <- extract_experience exp_patterns (Py.lower query) ;;
  let availability :=
    if Py.contains "available" (Py.lower query) then Some "available"
    else None in
  let query_lower := Py.lower query in
  Ok {| Req.skills := extract_skills query_lower;
        Req.experience := experience;
        Req.projects := [];
        Req.availability := availability;
        Req.department := None |}.

(** ** The filter *)

(** Truth value of [requirements['experience']]: [None] and 0 are false. *)
Definition truthy_int (x : option Z) : bool :=
  match x with
  | Some n => negb (n =? 0)
  | None => false
  end.

(** Truth value of [requirements['availability']]: [None] and the empty
    string are false. *)
Definition truthy_str (x : option string) : bool :=
  match x with
  | Some s => negb (String.eqb s "")
  | None => false
  end.

Definition emp_skills_lower (employee : Employee) : list string :=
  map Py.lower (skills employee).

Definition emp_text_lower (employee : Employee) : string :=
  Py.lower (Py.join " " (skills employee) ++ " "
            ++ Py.join " " (projects employee) ++ " " ++ name employee).

Definition skill_found (employee : Employee) (req_skill : string) : bool :=
  Py.mem req_skill (emp_skills_lower employee)
  || Py.contains req_skill (emp_text_lower employee)
  || existsb (fun skill => Py.contains req_skill (Py.lower skill))
             (skills employee).

Definition _matches_requirements (employee : Employee) (requirements : Req.t)
  : bool :=
  if truthy_int (Req.experience requirements)
     && match Req.experience requirements with
        | Some n => experience_years employee <? n
        | None => false
        end
  then false
  else if truthy_str (Req.availability requirements)
          && negb (match Req.availability requirements with
                   | Some a => String.eqb (value (availability employee)) a
                   | None => false
                   end)
  then false
  else match Req.skills requirements with
       | [] => true
       | req_skills => existsb (skill_found employee) req_skills
       end.

(** ** Ranking: [np.argsort(similarities)[::-1]] *)

Definition score_at (similarities : list Q) (i : nat) : Q :=
  nth i similarities 0%Q.

Fixpoint insert (similarities : list Q) (i : nat) (sorted : list nat)
  : list nat :=
  match sorted with
  | [] => [i]
  | j :: rest =>
      if Qle_bool (score_at similarities i) (score_at similarities j)
      then i :: sorted
      else j :: insert similarities i rest
  end.

(** [np.argsort]: the indices by ascending score.  The library fixes no
    order among equal scores; here they come by ascending index, which is
    what its insertion sort yields on a short array. *)
Definition argsort (similarities : list Q) : list nat :=
  fold_right (insert similarities) [] (seq 0 (List.length similarities)).

Definition ranking (similarities : list Q) : list nat :=
  rev (argsort similarities).

(** ** The two loops of the search *)

(** [for idx in top_indices: ...] with its [break]. *)
Fixpoint filter_loop (employees : list Employee) (similarities : list Q)
         (requirements : Req.t) (max_results : Z) (indices : list nat)
         (filtered_results : list Employee) (filtered_scores : list Q)
  : Result (list Employee * list Q) :=
  match indices with
  | [] => Ok (filtered_results, filtered_scores)
  | idx :: rest =>
      emp <- getitem employees idx ;;
      score <- getitem similarities idx ;;
      if _matches_requirements emp requirements then
        let filtered_results := (filtered_results ++ [emp])%list in
        let filtered_scores := (filtered_scores ++ [score])%list in
        if Py.len filtered_results >=? max_results
        then Ok (filtered_results, filtered_scores)
        else filter_loop employees similarities requirements max_results
                         rest filtered_results filtered_scores
      else filter_loop employees similarities requirements max_results
                       rest filtered_results filtered_scores
  end.

(** [for idx in top_indices[:max_results]: ...] of the fallback. *)
Fixpoint take_loop (employees : list Employee) (similarities : list Q)
         (indices : list nat)
         (filtered_results : list Employee) (filtered_scores : list Q)
  : Result (list Employee * list Q) :=
  match indices with
  | [] => Ok (filtered_results, filtered_scores)
  | idx :: rest =>
      emp <- getitem employees idx ;;
      score <- getitem similarities idx ;;
      take_loop employees similarities rest
                (filtered_results ++ [emp])%list (filtered_scores ++ [score])%list
  end.

(** ** Texts of the response *)

Definition nl : string := String (ascii_of_N 10) "".

(** The three characters the source file has in front of each detail. *)
Definition bullet : string := "â€¢".

Definition apology : string :=
  "I couldn't find any employees matching your specific requirements. Please try rephrasing your query or adjusting the criteria.".

(** A value of type [Optional[str]] inside an f-string. *)
Definition format_optional (x : option string) : string :=
  match x with
  | Some s => s
  | None => "None"
  end.

(** The name of a member of the enumeration. *)
Definition member_name (a : AvailabilityStatus) : string :=
  match a with
  | AVAILABLE => "AVAILABLE"
  | BUSY => "BUSY"
  | ON_LEAVE => "ON_LEAVE"
  end.

(** A member of the enumeration inside an f-string.  [Enum.__format__] is
    [Enum.__str__] from Python 3.11 on, also for an enumeration mixed with
    [str]: the class and the name of the member, not its value. *)
Definition format_status (a : AvailabilityStatus) : string :=
  "AvailabilityStatus." ++ member_name a.

Definition or_empty_list (x : option (list string)) : list string :=
  match x with
  | Some l => l
  | None => []
  end.

Definition or_empty (x : option string) : string :=
  match x with
  | Some s => s
  | None => ""
  end.

(** Truth value of [emp.specializations]. *)
Definition truthy_list (x : option (list string)) : bool :=
  match x with
  | Some (_ :: _) => true
  | _ => false
  end.

Definition detail_block (i : Z) (emp : Employee) : string :=
  "**" ++ Py.str_of_int i ++ ". " ++ name emp ++ "** ("
    ++ Py.str_of_int (experience_years emp) ++ " years experience)" ++ nl
  ++ "   " ++ bullet ++ " Skills: "
    ++ Py.join ", " (Py.slice_to 4 (skills emp)) ++ nl
  ++ "   " ++ bullet ++ " Recent projects: "
    ++ Py.join ", " (Py.slice_to 2 (projects emp)) ++ nl
  ++ "   " ++ bullet ++ " Status: " ++ format_status (availability emp)
    ++ " | Location: " ++ format_optional (location emp) ++ nl
  ++ (if truthy_list (specializations emp)
      then "   " ++ bullet ++ " Specializations: "
           ++ Py.join ", " (Py.slice_to 3 (or_empty_list (specializations emp)))
           ++ nl
      else "")
  ++ nl.

(** [for i, emp in enumerate(employees[:3], 1): ...]. *)
Fixpoint detail_blocks (i : Z) (emps : list Employee) : string :=
  match emps with
  | [] => ""
  | emp :: rest => detail_block i emp ++ detail_blocks (i + 1) rest
  end.

Definition _format_response (query : string) (employees : list Employee)
           (scores : list Q) : string :=
  (match employees with
   | [emp] =>
       "I found an excellent candidate for your requirements:" ++ nl ++ nl
       ++ "**" ++ name emp ++ "** would be perfect for this role. "
       ++ "With " ++ Py.str_of_int (experience_years emp)
       ++ " years of experience, they have worked on projects like "
       ++ Py.join ", " (Py.slice_to 2 (projects emp)) ++ ". "
       ++ "Their key skills include "
       ++ Py.join ", " (Py.slice_to 5 (skills emp)) ++ ". "
       ++ "They are currently " ++ format_status (availability emp)
       ++ " and based in " ++ format_optional (location emp) ++ "."
       ++ (if truthy_list (specializations emp)
           then nl ++ nl ++ "Their specializations include: "
                ++ Py.join ", " (or_empty_list (specializations emp)) ++ "."
           else "")
   | _ =>
       "Based on your requirements, I found "
       ++ Py.str_of_int (Py.len employees) ++ " excellent candidates:"
       ++ nl ++ nl
       ++ detail_blocks 1 (Py.slice_to 3 employees)
       ++ (if Py.len employees >? 3
           then "And " ++ Py.str_of_int (Py.len employees - 3)
                ++ " more candidates available. "
           else "")
   end)
  ++ nl ++ nl
  ++ "Would you like me to provide more details about any of these candidates or help you with additional search criteria?".

(** [sum(scores)]: from 0, left to right. *)
Definition sum (scores : list Q) : Q := fold_left Qplus scores 0%Q.

(** ** The engine

    The libraries behind it are variables: the sentence encoder, the
    analyzer of the vectorizer (the terms it draws from a text: words and
    pairs of adjacent words, stop words left out), the row the fitted
    vectorizer gives a text, and the cosine of two rows. *)

Section Engine.

Variable vec : Type.
Variable st_encode : string -> vec.
Variable analyze : string -> list string.
Variable tfidf_row : list string -> string -> vec.
Variable cosine : vec -> vec -> Q.

(** A fitted [TfidfVectorizer]: vocabulary and weights are a function of
    the texts it was fitted on. *)
Record Vectorizer : Type := { fitted_on : list string }.

Record RAGSystem : Type := {
  employees : list Employee;
  employee_embeddings : list vec;
  employee_texts : list string;
  vectorizer : option Vectorizer;
  use_sentence_transformers : bool
}.

Definition pad : string := "            ".

(** The text of [_build_sentence_embeddings] for one employee. *)
Definition sentence_text (emp : Employee) : string :=
  Py.strip
    (nl ++ pad ++ "Name: " ++ name emp ++ nl
     ++ pad ++ "Skills: " ++ Py.join ", " (skills emp) ++ nl
     ++ pad ++ "Experience: " ++ Py.str_of_int (experience_years emp)
       ++ " years" ++ nl
     ++ pad ++ "Projects: " ++ Py.join ", " (projects emp) ++ nl
     ++ pad ++ "Department: " ++ format_optional (department emp) ++ nl
     ++ pad ++ "Specializations: "
       ++ Py.join ", " (or_empty_list (specializations emp)) ++ nl
     ++ pad ++ "Availability: " ++ format_status (availability emp) ++ nl
     ++ pad ++ "Location: " ++ format_optional (location emp) ++ nl
     ++ pad).

(** The text of [_build_tfidf_embeddings] for one employee. *)
Definition tfidf_text (emp : Employee) : string :=
  let text_parts :=
    (skills emp ++ projects emp
     ++ [name emp; or_empty (department emp)]
     ++ or_empty_list (specializations emp)
     ++ [value (availability emp); or_empty (location emp);
         (Py.str_of_int (experience_years emp) ++ " years experience")%string])%list
  in Py.lower (Py.join " " text_parts).

(** [TfidfVectorizer.fit_transform]: it refuses a corpus from which the
    analyzer draws no term (its vocabulary would be empty). *)
Definition fit_transform (texts : list string)
  : Result (Vectorizer * list vec) :=
  match List.concat (map analyze texts) with
  | [] => Raise ValueError
  | _ => Ok ({| fitted_on := texts |}, map (tfidf_row texts) texts)
  end.

(** [vectorizer.transform([text])] ; [self.vectorizer] is [None] until
    [_build_tfidf_embeddings] has run. *)
Definition transform (v : option Vectorizer) (text : string) : Result vec :=
  match v with
  | Some v => Ok (tfidf_row (fitted_on v) text)
  | None => Raise AttributeError
  end.

(** [cosine_similarity(x, Y)[0]]: scikit-learn checks its arguments and
    refuses an array without rows. *)
Definition cosine_similarity (x : vec) (Y : list vec) : Result (list Q) :=
  match Y with
  | [] => Raise ValueError
  | _ => Ok (map (cosine x) Y)
  end.

(** [RAGSystem(employees_data)]: [__init__] and [_initialize_embeddings].
    [installed] tells whether [sentence_transformers] can be imported; the
    records arrive validated. *)
Definition RAGSystem_init (installed : bool) (employees_data : list Employee)
  : Result RAGSystem :=
  if installed then
    let texts := map sentence_text employees_data in
    Ok {| employees := employees_data;
          employee_embeddings := map st_encode texts;
          employee_texts := texts;
          vectorizer := None;
          use_sentence_transformers := true |}
  else
    let texts := map tfidf_text employees_data in
    '(v, embeddings) <- fit_transform texts ;;
    Ok {| employees := employees_data;
          employee_embeddings := embeddings;
          employee_texts := texts;
          vectorizer := Some v;
          use_sentence_transformers := false |}.

Definition top_indices (similarities : list Q) (max_results : Z) : list nat :=
  Py.slice_to (max_results * 2) (ranking similarities).

Definition _search_with_sentence_transformers (self : RAGSystem)
           (query : string) (max_results : Z)
  : Result (list Employee * list Q) :=
  let query_embedding := st_encode query in
  similarities <- cosine_similarity query_embedding (employee_embeddings self) ;;
  requirements <- _extract_requirements query ;;
  filter_loop (employees self) similarities requirements max_results
              (top_indices similarities max_results) [] [].

Definition _search_with_tfidf (self : RAGSystem)
           (query : string) (max_results : Z)
  : Result (list Employee * list Q) :=
  query_vector <- transform (vectorizer self) (Py.lower query) ;;
  similarities <- cosine_similarity query_vector (employee_embeddings self) ;;
  requirements <- _extract_requirements query ;;
  '(filtered_results, filtered_scores) <-
    filter_loop (employees self) similarities requirements max_results
                (top_indices similarities max_results) [] [] ;;
  match filtered_results with
  | [] =>
      take_loop (employees self) similarities
                (Py.slice_to max_results (top_indices similarities max_results))
                filtered_results filtered_scores
  | _ => Ok (filtered_results, filtered_scores)
  end.

Definition search_employees (self : RAGSystem) (query : string)
           (max_results : Z) : Result (list Employee * list Q) :=
  if use_sentence_transformers self
  then _search_with_sentence_transformers self query max_results
  else _search_with_tfidf self query max_results.

Definition generate_response (self : RAGSystem) (query : string)
           (max_results : Z) : Result ChatResponse :=
  '(employees, scores) <- search_employees self query max_results ;;
  match employees with
  | [] => Ok {| response := apology;
                matched_employees := [];
                confidence_score := 0%Q |}
  | _ =>
      let response := _format_response query employees scores in
      let avg_confidence :=
        match scores with
        | [] => 0%Q
        | _ => (sum scores / inject_Z (Py.len scores))%Q
        end in
      Ok {| response := response;
            matched_employees := employees;
            confidence_score := avg_confidence |}
  end.

(** The scores the search computes for a query, by the strategy of the
    system. *)
Definition query_similarities (self : RAGSystem) (query : string)
  : Result (list Q) :=
  if use_sentence_transformers self
  then cosine_similarity (st_encode query) (employee_embeddings self)
  else query_vector <- transform (vectorizer self) (Py.lower query) ;;
       cosine_similarity query_vector (employee_embeddings self).

End Engine.

Arguments employees {vec}.
Arguments employee_embeddings {vec}.
Arguments employee_texts {vec}.
Arguments vectorizer {vec}.
Arguments use_sentence_transformers {vec}.
Arguments RAGSystem_init {vec}.
Arguments search_employees {vec}.
Arguments _search_with_tfidf {vec}.
Arguments _search_with_sentence_transformers {vec}.
Arguments generate_response {vec}.
Arguments cosine_similarity {vec}.
Arguments fit_transform {vec}.
Arguments transform {vec}.
Arguments query_similarities {vec}.

(** ** A small instance, to run the engine

    Rows are bags of words and the score of a row is the number of words of
    the query it holds: enough to run every path of the engine. *)

Module Sample.

Fixpoint words_from (current : string) (s : string) : list string :=
  match s with
  | EmptyString =>
      match current with
      | EmptyString => []
      | _ => [current]
      end
  | String c s' =>
      if Ascii.eqb c " " then
        match current with
        | EmptyString => words_from "" s'
        | _ => current :: words_from "" s'
        end
      else words_from (current ++ String c "") s'
  end.

Definition words (s : string) : list string := words_from "" s.

Definition overlap (x y : list string) : Q :=
  inject_Z (Py.len (filter (fun w => Py.mem w y) x)).

Definition encode (s : string) : list string := words (Py.lower s).
Definition row (corpus : list string) (s : string) : list string := words s.

Definition init := RAGSystem_init encode words row.
Definition search := search_employees encode row overlap.
Definition answer := generate_response encode row overlap.

Definition employee (i : Z) (n : string) (sk : list string) (years : Z)
           (a : AvailabilityStatus) : Employee :=
  {| id := i; name := n; skills := sk; experience_years := years;
     projects := []; availability := a; department := None;
     location := None; specializations := None |}.

Definition A := employee 1 "A" ["Python"] 5 AVAILABLE.
Definition B := employee 2 "B" ["Java"] 2 BUSY.
Definition C := employee 3 "C" ["Python"; "AWS"] 7 AVAILABLE.

Definition staff : list Employee := [A; B; C].

(** The system of the lexical strategy over [staff]. *)
Definition lexical : RAGSystem (list string) :=
  let texts := map tfidf_text staff in
  {| employees := staff;
     employee_embeddings := map (row texts) texts;
     employee_texts := texts;
     vectorizer := Some {| fitted_on := texts |};
     use_sentence_transformers := false |}.

(** The system of the semantic strategy over [staff]. *)
Definition semantic : RAGSystem (list string) :=
  let texts := map sentence_text staff in
  {| employees := staff;
     employee_embeddings := map encode texts;
     employee_texts := texts;
     vectorizer := None;
     use_sentence_transformers := true |}.


End Sample.

(** ** The HTTP interface (backend/main.py)

    The functions behind the routes, as functions of the module-level
    [rag_system], which is [None] when the construction at start-up
    raised.  [round(x, 1)] and [str(e)] are variables. *)

Module Api.

(** The fields of an employee that the parameters of a route hide. *)
Definition Employee_availability := availability.
Definition Employee_department := department.

Inductive failure : Type :=
| HTTPException (status_code : Z) (detail : string)
| ZeroDivisionError.

Inductive Reply (A : Type) : Type :=
| Returns (a : A)
| Raises (e : failure).

Arguments Returns {A} a.
Arguments Raises {A} e.

(** [s.split(sep)] for a separator of one character. *)
Fixpoint split_from (sep : ascii) (current s : string) : list string :=
  match s with
  | EmptyString => [current]
  | String c s' =>
      if Ascii.eqb c sep then current :: split_from sep "" s'
      else split_from sep (current ++ String c "") s'
  end.

Definition split (sep : ascii) (s : string) : list string :=
  split_from sep "" s.

(** Truth value of a [str]. *)
Definition truthy (s : string) : bool := negb (String.eqb s "").

(** Truth value of an [Optional[str]]. *)
Definition truthy_opt (x : option string) : bool :=
  match x with
  | Some s => truthy s
  | None => false
  end.

(** [a == b] for two members of the enumeration. *)
Definition status_eqb (a b : AvailabilityStatus) : bool :=
  String.eqb (value a) (value b).

(** [d[key] = d.get(key, 0) + 1] on a dictionary, which keeps its keys in
    the order of their first insertion. *)
Fixpoint bump (key : string) (d : list (string * Z)) : list (string * Z) :=
  match d with
  | [] => [(key, 1)]
  | (k, n) :: rest =>
      if String.eqb k key then (k, n + 1) :: rest
      else (k, n) :: bump key rest
  end.

(** The loop that counts the keys of a list into a dictionary. *)
Definition count_all (keys : list string) : list (string * Z) :=
  fold_left (fun d key => bump key d) keys [].

Fixpoint insert_by_count (x : string * Z) (sorted : list (string * Z))
  : list (string * Z) :=
  match sorted with
  | [] => [x]
  | y :: rest =>
      if snd y >? snd x then y :: insert_by_count x rest else x :: sorted
  end.

(** [sorted(items, key=lambda x: x[1], reverse=True)]: by descending
    count, items of equal count in their original order. *)
Definition sorted_by_count (items : list (string * Z)) : list (string * Z) :=
  fold_right insert_by_count [] items.

Record Health : Type := {
  message : string;
  status : string;
  employees_loaded : Z
}.

Record Stats : Type := {
  total_employees : Z;
  available_employees : Z;
  average_experience : Q;
  top_skills : list (string * Z);
  department_distribution : list (string * Z)
}.

(** The body of the loop of the structured search: [true] when the
    employee is appended, [false] at a [continue]. *)
Definition kept (skills_list : list string)
           (min_experience max_experience : option Z)
           (availability : option AvailabilityStatus)
           (department : option string) (emp : Employee) : bool :=
  if match skills_list with
     | [] => false
     | _ => negb (existsb (fun skill =>
                             Py.mem (Py.lower skill)
                                    (map Py.lower (skills emp)))
                          skills_list)
     end
  then false
  else if truthy_int min_experience
          && match min_experience with
             | Some n => experience_years emp <? n
             | None => false
             end
  then false
  else if truthy_int max_experience
          && match max_experience with
             | Some n => experience_years emp >? n
             | None => false
             end
  then false
  else if match availability with
          | Some a => truthy (value a)
                      && negb (status_eqb (Employee_availability emp) a)
          | None => false
          end
  then false
  else if truthy_opt department && truthy_opt (Employee_department emp)
          && negb (Py.contains (Py.lower (or_empty department))
                               (Py.lower (or_empty
                                            (Employee_department emp))))
  then false
  else true.

Section Endpoints.

Variable vec : Type.
Variable st_encode : string -> vec.
Variable analyze : string -> list string.
Variable tfidf_row : list string -> string -> vec.
Variable cosine : vec -> vec -> Q.
Variable round_1 : Q -> Q.
Variable str_of_exception : exn -> string.

(** The module-level construction: any exception leaves [rag_system] at
    [None]. *)
Definition startup (installed : bool) (employee_data : list Employee)
  : option (RAGSystem vec) :=
  match RAGSystem_init st_encode analyze tfidf_row installed employee_data with
  | Ok system => Some system
  | Raise _ => None
  end.

Variable rag_system : option (RAGSystem vec).

Definition not_initialized {A} : Reply A :=
  Raises (HTTPException 500 "RAG system not initialized").

Definition root : Health :=
  {| message := "HR Resource Query Chatbot API is running!";
     status := "healthy";
     employees_loaded := match rag_system with
                         | Some system => Py.len (employees system)
                         | None => 0
                         end |}.

(** [rag_system.generate_response(query.query, query.max_results)] with
    the optional [max_results] of [ChatQuery]: on [None] the search
    computes its scores and then fails at [max_results * 2]. *)
Definition respond (system : RAGSystem vec) (query : string)
           (max_results : option Z) : Result ChatResponse :=
  match max_results with
  | Some n => generate_response st_encode tfidf_row cosine system query n
  | None =>
      _ <- query_similarities st_encode tfidf_row cosine system query ;;
      Raise TypeError
  end.

Definition chat_query (query : string) (max_results : option Z)
  : Reply ChatResponse :=
  match rag_system with
  | None => not_initialized
  | Some system =>
      match respond system query max_results with
      | Ok response => Returns response
      | Raise e =>
          Raises (HTTPException 500 ("Error processing query: "
                                     ++ str_of_exception e))
      end
  end.

Definition get_all_employees : Reply (list Employee) :=
  match rag_system with
  | None => not_initialized
  | Some system => Returns (employees system)
  end.

Definition skills_list (skills : option string) : list string :=
  match skills with
  | Some s => if truthy s then map Py.strip (split "," s) else []
  | None => []
  end.

Definition search_employees (skills : option string)
           (min_experience max_experience : option Z)
           (availability : option AvailabilityStatus)
           (department : option string) (max_results : option Z)
  : Reply (list Employee) :=
  match rag_system with
  | None => not_initialized
  | Some system =>
      let filtered_employees :=
        filter (kept (skills_list skills) min_experience max_experience
                     availability department)
               (employees system) in
      Returns (if truthy_int max_results
               then match max_results with
                    | Some k => Py.slice_to k filtered_employees
                    | None => filtered_employees
                    end
               else filtered_employees)
  end.

Definition get_employee (employee_id : Z) : Reply Employee :=
  match rag_system with
  | None => not_initialized
  | Some system =>
      match find (fun emp => id emp =? employee_id) (employees system) with
      | Some employee => Returns employee
      | None => Raises (HTTPException 404 "Employee not found")
      end
  end.

Definition get_stats : Reply Stats :=
  match rag_system with
  | None => not_initialized
  | Some system =>
      let employees := employees system in
      let total_employees := Py.len employees in
      let available_employees :=
        Py.len (filter (fun e => String.eqb (value (Employee_availability e))
                                            "available") employees) in
      if total_employees =? 0 then Raises ZeroDivisionError
      else
        let avg_experience :=
          (inject_Z (fold_left Z.add (map experience_years employees) 0%Z)
           / inject_Z total_employees)%Q in
        let all_skills := List.concat (map skills employees) in
        let skill_counts := count_all all_skills in
        let top_skills := Py.slice_to 10 (sorted_by_count skill_counts) in
        let dept_counts :=
          count_all (map or_empty
                         (filter truthy_opt
                                 (map Employee_department employees))) in
        Returns {| total_employees := total_employees;
                   available_employees := available_employees;
                   average_experience := round_1 avg_experience;
                   top_skills := top_skills;
                   department_distribution := dept_counts |}
  end.

End Endpoints.

Arguments startup {vec}.
Arguments root {vec}.
Arguments respond {vec}.
Arguments chat_query {vec}.
Arguments get_all_employees {vec}.
Arguments search_employees {vec}.
Arguments get_employee {vec}.
Arguments get_stats {vec}.

End Api.

(** ** The dashboard (frontend/app.py): levels of experience *)

Module Dashboard.

(** The key of [experience_ranges] that the chain of comparisons picks. *)
Definition range_of (exp : Z) : string :=
  if exp <=? 2 then "0-2 years"
  else if exp <=? 5 then "3-5 years"
  else if exp <=? 8 then "6-8 years"
  else "9+ years".

(** The loop that fills [experience_ranges]; each key is there from the
    start, so [+= 1] is the update of [Api.bump]. *)
Definition experience_ranges (employees : list Employee)
  : list (string * Z) :=
  fold_left (fun ranges emp =>
               Api.bump (range_of (experience_years emp)) ranges)
            employees
            [("0-2 years", 0); ("3-5 years", 0); ("6-8 years", 0);
             ("9+ years", 0)].

End Dashboard.

(** ** A second instance, with departments, to run the routes *)

Module Office.

Definition member (i : Z) (n : string) (sk : list string) (years : Z)
           (a : AvailabilityStatus) (d : option string) : Employee :=
  {| id := i; name := n; skills := sk; experience_years := years;
     projects := ["Portal"]; availability := a; department := d;
     location := Some "Pune"; specializations := None |}.

Definition ana := member 1 "Ana" ["Python"; "AWS"] 5 AVAILABLE
                         (Some "Engineering").
Definition ben := member 2 "Ben" ["Java"; "AWS"] 2 BUSY (Some "Engineering").
Definition cy := member 3 "Cy" ["Python"] 7 ON_LEAVE None.

Definition staff : list Employee := [ana; ben; cy].

(** The system of the semantic strategy over [staff]. *)
Definition system : RAGSystem (list string) :=
  let texts := map sentence_text staff in
  {| employees := staff;
     employee_embeddings := map Sample.encode texts;
     employee_texts := texts;
     vectorizer := None;
     use_sentence_transformers := true |}.

(** A cosine that lies between 0 and 1. *)
Definition flat (x y : list string) : Q := 1 # 2.

(** Stand-ins for [round(x, 1)] and [str(e)]. *)
Definition unrounded (x : Q) : Q := x.

Definition class_name (e : exn) : string :=
  match e with
  | ValueError => "ValueError"
  | TypeError => "TypeError"
  | IndexError => "IndexError"
  | AttributeError => "AttributeError"
  end.

End Office.

(** ** Notions the properties are stated with *)

(** [needle in hay] holds exactly when [needle] occurs in [hay]. *)
Definition occurs (needle hay : string) : Prop :=
  exists pre post, hay = pre ++ needle ++ post.

(** Groups that every match of a pattern sets. *)
Fixpoint sets (r : regex) (n : nat) : bool :=
  match r with
  | Cat r1 r2 => sets r1 n || sets r2 n
  | Alt r1 r2 => sets r1 n && sets r2 n
  | Group i r1 => Nat.eqb i n || sets r1 n
  | _ => false
  end.

(** Copies of a record with one field replaced. *)
Definition set_department (emp : Employee) (d : option string) : Employee :=
  {| id := id emp; name := name emp; skills := skills emp;
     experience_years := experience_years emp; projects := projects emp;
     availability := availability emp; department := d;
     location := location emp; specializations := specializations emp |}.

Definition set_experience_years (emp : Employee) (years : Z) : Employee :=
  {| id := id emp; name := name emp; skills := skills emp;
     experience_years := years; projects := projects emp;
     availability := availability emp; department := department emp;
     location := location emp; specializations := specializations emp |}.

Definition req_set_department (r : Req.t) (d : option string) : Req.t :=
  {| Req.skills := Req.skills r; Req.experience := Req.experience r;
     Req.projects := Req.projects r; Req.availability := Req.availability r;
     Req.department := d |}.

Definition req_set_experience (r : Req.t) (e : option Z) : Req.t :=
  {| Req.skills := Req.skills r; Req.experience := e;
     Req.projects := Req.projects r; Req.availability := Req.availability r;
     Req.department := Req.department r |}.

(** The requirements of the query [0 years experience]. *)
Definition zero_years : Req.t :=
  {| Req.skills := []; Req.experience := Some 0; Req.projects := [];
     Req.availability := None; Req.department := None |}.

(** No character of the text is a digit. *)
Fixpoint no_digit (s : string) : bool :=
  match s with
  | EmptyString => true
  | String c s' => negb (Py.is_digit c) && no_digit s'
  end.

(** The result the specification gives for its example. *)
Definition claimed (r : Req.t) : Prop :=
  Req.experience r = Some 3
  /\ Req.availability r = Some "available"
  /\ Req.skills r = [].

(** The order [argsort] promises: the score never decreases. *)
Definition ascending (similarities : list Q) (a b : nat) : Prop :=
  (score_at similarities a <= score_at similarities b)%Q.

(** The order of the ranking, which is the reverse: the score never
    increases. *)
Definition descending (similarities : list Q) (a b : nat) : Prop :=
  ascending similarities b a.

(** A stable descending order: the earlier of two candidates has the
    greater score or, at equal scores, the smaller index. *)
Definition ranks_stably (similarities : list Q) (r : list nat) : Prop :=
  StronglySorted
    (fun a b =>
       (score_at similarities b < score_at similarities a)%Q
       \/ ((score_at similarities a == score_at similarities b)%Q
           /\ (a < b)%nat)) r.


(** No candidate at the given indices passes the filter. *)
Definition none_passes (employees : list Employee) (requirements : Req.t)
           (indices : list nat) : Prop :=
  Forall (fun idx => forall emp, nth_error employees idx = Some emp ->
                                 _matches_requirements emp requirements = false)
         indices.

(** The indices stay inside both arrays. *)
Definition in_range (employees : list Employee) (similarities : list Q)
           (indices : list nat) : Prop :=
  Forall (fun idx => (idx < List.length employees)%nat
                     /\ (idx < List.length similarities)%nat) indices.

(** The response to a search without matches. *)
Definition no_match_response : ChatResponse :=
  {| response := apology; matched_employees := []; confidence_score := 0%Q |}.

(** The arithmetic mean of a list of scores: their total over their
    number. *)
Definition mean (scores : list Q) : Q :=
  (fold_right Qplus 0 scores / inject_Z (Z.of_nat (List.length scores)))%Q.

(** The examined indices whose employee passes the filter, in their order. *)
Definition passing (employees : list Employee) (requirements : Req.t)
           (indices : list nat) : list nat :=
  filter (fun idx => match nth_error employees idx with
                     | Some emp => _matches_requirements emp requirements
                     | None => false
                     end) indices.

(** The indices a search returns the employees of: the first [max_results]
    that pass among the examined and, for the lexical strategy when none
    does, the first [max_results] of the examined. *)
Definition chosen (semantic : bool) (employees : list Employee)
           (requirements : Req.t) (similarities : list Q) (max_results : Z)
  : list nat :=
  match firstn (Z.to_nat max_results)
               (passing employees requirements
                        (top_indices similarities max_results)) with
  | [] => if semantic then []
          else Py.slice_to max_results (top_indices similarities max_results)
  | found => found
  end.

(** Requirements that ask for nothing. *)
Definition asks_nothing (requirements : Req.t) : Prop :=
  Req.experience requirements = None
  /\ Req.availability requirements = None
  /\ Req.skills requirements = [].

(** Every character of the text satisfies [p]. *)
Fixpoint all_chars (p : ascii -> bool) (s : string) : bool :=
  match s with
  | EmptyString => true
  | String c s' => p c && all_chars p s'
  end.

(** Every character of the text is a digit. *)
Definition all_digits (s : string) : bool := all_chars Py.is_digit s.

(** Wherever a pattern has a first group, the group is [(\d+)]. *)
Fixpoint first_group_is_digits (r : regex) : Prop :=
  match r with
  | Cat r1 r2 => first_group_is_digits r1 /\ first_group_is_digits r2
  | Alt r1 r2 => first_group_is_digits r1 /\ first_group_is_digits r2
  | Opt r1 => first_group_is_digits r1
  | Group n r1 =>
      if Nat.eqb n 1 then r1 = Plus Py.is_digit else first_group_is_digits r1
  | _ => True
  end.

(** The first group of a match, if set, holds digits only. *)
Definition digits_in_first (g : groups) : Prop :=
  forall t, group 1 g = Some t -> all_digits t = true.

(** The digits the text starts with, counted. *)
Fixpoint digit_run (s : string) : nat :=
  match s with
  | String c s' => if Py.is_digit c then S (digit_run s') else 0
  | EmptyString => 0
  end.

(** The length of the longest run of digits of the text. *)
Fixpoint longest_digit_run (s : string) : nat :=
  match s with
  | EmptyString => 0
  | String _ s' => Nat.max (digit_run s) (longest_digit_run s')
  end.

(** No run of digits of the text is longer than [int] converts. *)
Definition digits_fit (s : string) : Prop :=
  Z.of_nat (longest_digit_run s) <= Py.max_str_digits.

(** The first group of a match, if set, is no longer than the longest run
    of digits of the text. *)
Definition first_group_within (text : string) (g : groups) : Prop :=
  forall t, group 1 g = Some t ->
            (String.length t <= longest_digit_run text)%nat.

(** The text made of [n] times the character [c]. *)
Fixpoint copies (n : nat) (c : ascii) : string :=
  match n with
  | O => EmptyString
  | S n' => String c (copies n' c)
  end.

(** The character [c] of a text is the character [p] of a pattern, or the
    capital of the small letter [p]. *)
Definition same_letter (c p : ascii) : Prop :=
  c = p \/ (Py.between 97 122 p = true /\ (Py.code c + 32)%N = Py.code p).

(** The text is the pattern, whatever the case of its letters. *)
Fixpoint same_text (text pattern : string) : Prop :=
  match text, pattern with
  | EmptyString, EmptyString => True
  | String c text', String p pattern' =>
      same_letter c p /\ same_text text' pattern'
  | _, _ => False
  end.

(** The pattern occurs in the text, whatever the case of the letters of the
    text. *)
Definition occurs_ignoring_case (pattern text : string) : Prop :=
  exists pre mid post, text = pre ++ mid ++ post /\ same_text mid pattern.

(** A character of a pattern written without capitals, in ASCII. *)
Definition plain (p : ascii) : bool :=
  (Py.code p <? 128)%N && negb (Py.between 65 90 p).

(** The dictionary after counting the keys seen so far. *)
Definition counts (seen : list string) (d : list (string * Z)) : Prop :=
  NoDup (map fst d)
  /\ (forall k, In k (map fst d) <-> In k seen)
  /\ (forall k n, In (k, n) d ->
                  n = Z.of_nat (count_occ string_dec seen k)).

(** * Properties *)

(** ** Strings *)

Lemma startswith_app (n h : string) :
  Py.startswith n h = true <-> exists post, h = n ++ post.
Proof.
  revert h; induction n as [|c n IH]; intros h; simpl.
  - split; [intros _; exists h; reflexivity | reflexivity].
  - destruct h as [|d h]; simpl.
    + split; [discriminate | intros [post H]; discriminate].
    + destruct (Ascii.eqb_spec c d) as [->|Hne]; simpl.
      * rewrite IH. split; intros [post H]; exists post.
        -- now rewrite H.
        -- now injection H.
      * split; [discriminate | intros [post H]; injection H; intros; congruence].
Qed.

Lemma contains_occurs (n h : string) :
  Py.contains n h = true <-> occurs n h.
Proof.
  induction h as [|c h IH].
  - simpl. destruct (Py.startswith n "") eqn:E.
    + split; [intros _ | reflexivity].
      apply startswith_app in E as [post E]. exists "", post. exact E.
    + split; [discriminate|]. intros [pre [post H]].
      destruct pre; simpl in H.
      * assert (Py.startswith n "" = true) by (apply startswith_app; eauto).
        congruence.
      * discriminate.
  - simpl. destruct (Py.startswith n (String c h)) eqn:E.
    + split; [intros _ | reflexivity].
      apply startswith_app in E as [post E]. exists "", post. exact E.
    + rewrite IH. split.
      * intros [pre [post H]]. exists (String c pre), post. simpl. now rewrite H.
      * intros [pre [post H]]. destruct pre as [|d pre]; simpl in H.
        -- assert (Py.startswith n (String c h) = true)
             by (apply startswith_app; eauto).
           congruence.
        -- injection H as _ H. exists pre, post. exact H.
Qed.

Lemma append_assoc (a b c : string) : (a ++ b) ++ c = a ++ (b ++ c).
Proof.
  induction a as [|x a IH]; simpl; [reflexivity | now rewrite IH].
Qed.


Lemma lower_app (a b : string) :
  Py.lower (a ++ b) = Py.lower a ++ Py.lower b.
Proof.
  induction a as [|c a IH]; simpl; [reflexivity | now rewrite IH].
Qed.



Lemma occurs_trans (a b c : string) : occurs a b -> occurs b c -> occurs a c.
Proof.
  intros [p1 [q1 ->]] [p2 [q2 ->]]. exists (p2 ++ p1), (q1 ++ q2).
  now rewrite !append_assoc.
Qed.

(** ** The matcher: what a match holds *)

Lemma star_some {R} (p : ascii -> bool) (s : string) (k : string -> option R) m :
  star p s k = Some m -> exists s', k s' = Some m.
Proof.
  induction s as [|c s IH]; simpl; intros H.
  - eauto.
  - destruct (p c); [|eauto].
    destruct (star p s k) eqn:E; [|eauto].
    injection H as ->. now apply IH.
Qed.

Lemma run_some (r : regex) (n : nat) :
  forall s g k m,
    run r s g k = Some m ->
    exists s' g', k s' g' = Some m
      /\ (group n g <> None \/ sets r n = true -> group n g' <> None).
Proof.
  induction r as [|c|r1 IH1 r2 IH2|r1 IH1 r2 IH2|r1 IH1|p|p|i r1 IH1];
    simpl; intros s g k m H.
  - exists s, g. split; [exact H|]. intros [?|?]; [assumption|discriminate].
  - destruct s as [|c' s]; [discriminate|].
    destruct (Ascii.eqb c c'); [|discriminate].
    exists s, g. split; [exact H|]. intros [?|?]; [assumption|discriminate].
  - apply IH1 in H as (s1 & g1 & H & Hg1).
    apply IH2 in H as (s2 & g2 & H & Hg2).
    exists s2, g2. split; [exact H|].
    intros [Hg|Hs].
    + apply Hg2. left. apply Hg1. now left.
    + apply orb_true_iff in Hs as [Hs|Hs].
      * apply Hg2. left. apply Hg1. now right.
      * apply Hg2. now right.
  - destruct (run r1 s g k) eqn:E.
    + injection H as ->. apply IH1 in E as (s1 & g1 & E & Hg1).
      exists s1, g1. split; [exact E|].
      intros [Hg|Hs]; apply Hg1; [now left|].
      apply andb_true_iff in Hs as [Hs _]. now right.
    + apply IH2 in H as (s1 & g1 & H & Hg1).
      exists s1, g1. split; [exact H|].
      intros [Hg|Hs]; apply Hg1; [now left|].
      apply andb_true_iff in Hs as [_ Hs]. now right.
  - destruct (run r1 s g k) eqn:E.
    + injection H as ->. apply IH1 in E as (s1 & g1 & E & Hg1).
      exists s1, g1. split; [exact E|].
      intros [Hg|Hs]; [|discriminate]. apply Hg1. now left.
    + exists s, g. split; [exact H|]. intros [?|?]; [assumption|discriminate].
  - apply star_some in H as [s' H]. exists s', g. split; [exact H|].
    intros [?|?]; [assumption|discriminate].
  - destruct s as [|c s]; [discriminate|]. destruct (p c); [|discriminate].
    apply star_some in H as [s' H]. exists s', g. split; [exact H|].
    intros [?|?]; [assumption|discriminate].
  - apply IH1 in H as (s1 & g1 & H & Hg1).
    exists s1, ((i, consumed s s1) :: g1). split; [exact H|].
    simpl. destruct (Nat.eqb i n) eqn:E; [discriminate|].
    simpl. intros Hd. apply Hg1. exact Hd.
Qed.

Lemma search_sets (r : regex) (n : nat) (s : string) (m : groups) :
  sets r n = true -> search r s = Some m -> group n m <> None.
Proof.
  intros Hs. induction s as [|c s IH]; simpl.
  - destruct (match_at r "") eqn:E; [|discriminate].
    intros H; injection H as ->.
    apply (run_some r n) in E as (s' & g' & E & Hg).
    injection E as ->. apply Hg. now right.
  - destruct (match_at r (String c s)) eqn:E; [|exact IH].
    intros H; injection H as ->.
    apply (run_some r n) in E as (s' & g' & E & Hg).
    injection E as ->. apply Hg. now right.
Qed.

(** What a starred class takes is made of characters of the class. *)
Lemma star_split {R} (p : ascii -> bool) (s : string)
      (k : string -> option R) (m : R) :
  star p s k = Some m ->
  exists a s', s = a ++ s' /\ all_chars p a = true /\ k s' = Some m.
Proof.
  induction s as [|c s IH]; simpl; intros H.
  - exists "", "". auto.
  - destruct (p c) eqn:Hp; [|exists "", (String c s); auto].
    destruct (star p s k) eqn:E; [|exists "", (String c s); auto].
    injection H as ->. destruct (IH eq_refl) as (a & s' & -> & Ha & Hk).
    exists (String c a), s'. simpl. rewrite Hp, Ha. auto.
Qed.

Lemma length_append (a b : string) :
  String.length (a ++ b) = (String.length a + String.length b)%nat.
Proof.
  induction a as [|c a IH]; simpl; [reflexivity | now rewrite IH].
Qed.

Lemma substring_app (a b : string) :
  String.substring 0 (String.length a) (a ++ b) = a.
Proof.
  induction a as [|c a IH]; simpl.
  - destruct b; reflexivity.
  - now rewrite IH.
Qed.

Lemma consumed_app (a rest : string) : consumed (a ++ rest) rest = a.
Proof.
  unfold consumed. rewrite length_append.
  replace (String.length a + String.length rest - String.length rest)%nat
    with (String.length a) by lia.
  apply substring_app.
Qed.

(** ** Runs of digits, and the limit of [int] *)

Lemma is_digit_lower (c : ascii) :
  Py.is_digit (Py.lower_char c) = Py.is_digit c.
Proof. destruct c as [[] [] [] [] [] [] [] []]; reflexivity. Qed.

Lemma digit_run_app (t post : string) :
  all_digits t = true -> (String.length t <= digit_run (t ++ post))%nat.
Proof.
  unfold all_digits. induction t as [|c t IH]; simpl; intros H; [lia|].
  apply andb_true_iff in H as [Hc H]. rewrite Hc. specialize (IH H). lia.
Qed.

Lemma digit_run_longest (s : string) :
  (digit_run s <= longest_digit_run s)%nat.
Proof.
  destruct s; [simpl; lia | cbn [longest_digit_run]; apply Nat.le_max_l].
Qed.

Lemma longest_digit_run_app (pre s : string) :
  (longest_digit_run s <= longest_digit_run (pre ++ s))%nat.
Proof.
  induction pre as [|c pre IH]; [simpl; lia|].
  change (String c pre ++ s) with (String c (pre ++ s)).
  cbn [longest_digit_run]. lia.
Qed.

(** A run of digits somewhere in the text is no longer than the longest. *)
Lemma digits_within (text pre t post : string) :
  text = pre ++ t ++ post -> all_digits t = true ->
  (String.length t <= longest_digit_run text)%nat.
Proof.
  intros -> H.
  pose proof (digit_run_app t post H).
  pose proof (digit_run_longest (t ++ post)).
  pose proof (longest_digit_run_app pre (t ++ post)).
  lia.
Qed.

Lemma digit_run_lower (s : string) : digit_run (Py.lower s) = digit_run s.
Proof.
  induction s as [|c s IH]; simpl; [reflexivity|].
  now rewrite is_digit_lower, IH.
Qed.

Lemma longest_digit_run_lower (s : string) :
  longest_digit_run (Py.lower s) = longest_digit_run s.
Proof.
  induction s as [|c s IH]; [reflexivity|].
  cbn [Py.lower longest_digit_run]. rewrite IH. f_equal.
  exact (digit_run_lower (String c s)).
Qed.

Lemma digits_fit_lower (s : string) : digits_fit s -> digits_fit (Py.lower s).
Proof. unfold digits_fit. now rewrite longest_digit_run_lower. Qed.

(** The first group of a match is a run of digits of the text. *)
Lemma run_within (text : string) (r : regex) :
  first_group_is_digits r ->
  forall s g k m pre,
    text = pre ++ s ->
    run r s g k = Some m ->
    first_group_within text g ->
    exists pre' s' g',
      text = pre' ++ s' /\ k s' g' = Some m /\ first_group_within text g'.
Proof.
  induction r as [|c|r1 IH1 r2 IH2|r1 IH1 r2 IH2|r1 IH1|p|p|i r1 IH1];
    simpl; intros Hw s g k m pre Ht H Hg.
  - eauto 6.
  - destruct s as [|c' s]; [discriminate|].
    destruct (Ascii.eqb c c'); [|discriminate].
    exists (pre ++ String c' ""), s, g. rewrite append_assoc. auto.
  - destruct Hw as [Hw1 Hw2].
    apply (IH1 Hw1 _ _ _ _ pre Ht) in H as (p1 & s1 & g1 & Ht1 & H & Hg1);
      [|exact Hg].
    apply (IH2 Hw2 _ _ _ _ p1 Ht1) in H as (p2 & s2 & g2 & Ht2 & H & Hg2);
      [|exact Hg1].
    eauto 6.
  - destruct Hw as [Hw1 Hw2]. destruct (run r1 s g k) eqn:E.
    + injection H as ->. now apply (IH1 Hw1 _ _ _ _ pre Ht) in E.
    + now apply (IH2 Hw2 _ _ _ _ pre Ht) in H.
  - destruct (run r1 s g k) eqn:E.
    + injection H as ->. now apply (IH1 Hw _ _ _ _ pre Ht) in E.
    + eauto 6.
  - apply star_split in H as (a & s' & -> & _ & H).
    exists (pre ++ a), s', g. rewrite append_assoc. auto.
  - destruct s as [|c s]; [discriminate|]. destruct (p c); [|discriminate].
    apply star_split in H as (a & s' & -> & _ & H).
    exists (pre ++ String c a), s', g. rewrite append_assoc. auto.
  - destruct (Nat.eqb i 1) eqn:Ei.
    + subst r1. cbn [run] in H.
      destruct s as [|c s]; [discriminate|].
      destruct (Py.is_digit c) eqn:Hc; [|discriminate].
      apply star_split in H as (a & s' & -> & Ha & H).
      exists (pre ++ String c a), s',
        ((i, consumed (String c (a ++ s')) s') :: g).
      split; [rewrite append_assoc; exact Ht|]. split; [exact H|].
      intros t Hgt. cbn [group] in Hgt. rewrite Ei in Hgt.
      injection Hgt as <-.
      pose proof (consumed_app (String c a) s') as Hca.
      cbn [append] in Hca. rewrite Hca.
      apply (digits_within text pre (String c a) s' Ht).
      unfold all_digits. simpl. now rewrite Hc, Ha.
    + apply (IH1 Hw _ _ _ _ pre Ht) in H as (p' & s' & g' & Ht' & H & Hg');
        [|exact Hg].
      exists p', s', ((i, consumed s s') :: g').
      split; [exact Ht'|]. split; [exact H|].
      intros t Hgt. cbn [group] in Hgt. rewrite Ei in Hgt. now apply Hg'.
Qed.

Lemma search_within (r : regex) (text : string) (m : groups) :
  first_group_is_digits r -> search r text = Some m ->
  first_group_within text m.
Proof.
  intros Hw.
  assert (first_group_within text []) as H0 by (intros t; discriminate).
  assert (forall s pre, text = pre ++ s -> search r s = Some m ->
                        first_group_within text m) as H.
  { induction s as [|c s IH]; intros pre Ht; simpl.
    - destruct (match_at r "") eqn:E; [|discriminate].
      intros H; injection H as ->.
      apply (run_within text r Hw _ _ _ _ pre Ht) in E
        as (p' & s' & g' & _ & E & Hg); [|exact H0].
      now injection E as ->.
    - destruct (match_at r (String c s)) eqn:E.
      + intros H; injection H as ->.
        apply (run_within text r Hw _ _ _ _ pre Ht) in E
          as (p' & s' & g' & _ & E & Hg); [|exact H0].
        now injection E as ->.
      + apply (IH (pre ++ String c "")). now rewrite append_assoc. }
  apply (H text ""). reflexivity.
Qed.

(** [int] converts up to [max_str_digits] digits and refuses more. *)
Lemma int_accepts (t : string) :
  Z.of_nat (String.length t) <= Py.max_str_digits ->
  Py.int t = Ok (Py.int_of_digits_from 0 t).
Proof.
  intros H. unfold Py.int.
  destruct (Z.ltb_spec Py.max_str_digits (Z.of_nat (String.length t)));
    [lia | reflexivity].
Qed.

Lemma int_refuses (t : string) :
  Py.max_str_digits < Z.of_nat (String.length t) ->
  Py.int t = Raise ValueError.
Proof.
  intros H. unfold Py.int.
  destruct (Z.ltb_spec Py.max_str_digits (Z.of_nat (String.length t)));
    [reflexivity | lia].
Qed.

Lemma int_returns (t : string) (n : Z) :
  Py.int t = Ok n -> n = Py.int_of_digits_from 0 t.
Proof.
  unfold Py.int.
  destruct (Py.max_str_digits <? Z.of_nat (String.length t));
    [discriminate|].
  now intros H; injection H as <-.
Qed.


(** The limit itself: 4300 digits are converted, 4301 are not. *)
Example int_at_the_limit :
  (exists n, Py.int (copies 4300 "9") = Ok n)
  /\ Py.int (copies 4301 "9") = Raise ValueError.
Proof.
  split; [eexists|]; vm_compute; reflexivity.
Qed.

Lemma patterns_set_digits :
  Forall (fun p => sets p 1 = true /\ first_group_is_digits p) exp_patterns.
Proof. repeat constructor; simpl; auto. Qed.

(** No pattern of the list can match without its first group, and the
    group is a run of digits of the query: the extraction returns when no
    run of digits is longer than [int] converts. *)
Lemma extract_experience_accepts (q : string) :
  digits_fit q -> exists e, extract_experience exp_patterns q = Ok e.
Proof.
  intros Hq. generalize patterns_set_digits.
  generalize exp_patterns as ps.
  induction 1 as [|p ps [Hp Hw] _ IH]; simpl; [eauto|].
  destruct (search p q) as [m|] eqn:E; [|exact IH].
  pose proof (search_sets p 1 q m Hp E) as Hg.
  pose proof (search_within p q m Hw E) as Hl.
  unfold int_group_1. destruct (group 1 m) as [t|] eqn:Et; [|congruence].
  rewrite int_accepts; [simpl; eauto|].
  specialize (Hl t Et). unfold digits_fit in Hq. lia.
Qed.

Lemma extraction_accepts (query : string) :
  digits_fit query -> exists r, _extract_requirements query = Ok r.
Proof.
  intros H. unfold _extract_requirements.
  destruct (extract_experience_accepts (Py.lower query)
              (digits_fit_lower query H)) as [e ->].
  simpl. eauto.
Qed.



(** ** What the extraction yields *)

Lemma extract_availability (query : string) (r : Req.t) :
  _extract_requirements query = Ok r ->
  Req.availability r =
    if Py.contains "available" (Py.lower query) then Some "available" else None.
Proof.
  unfold _extract_requirements.
  destruct (extract_experience exp_patterns (Py.lower query)); simpl;
    [|discriminate].
  intros H; injection H as <-. reflexivity.
Qed.

Lemma extract_skills_of (query : string) (r : Req.t) :
  _extract_requirements query = Ok r ->
  Req.skills r = extract_skills (Py.lower query).
Proof.
  unfold _extract_requirements.
  destruct (extract_experience exp_patterns (Py.lower query)); simpl;
    [|discriminate].
  intros H; injection H as <-. reflexivity.
Qed.

Lemma extract_experience_of (query : string) (r : Req.t) :
  _extract_requirements query = Ok r ->
  extract_experience exp_patterns (Py.lower query) = Ok (Req.experience r).
Proof.
  unfold _extract_requirements.
  destruct (extract_experience exp_patterns (Py.lower query)); simpl;
    [|discriminate].
  intros H; injection H as <-. reflexivity.
Qed.

Lemma extract_department (query : string) (r : Req.t) :
  _extract_requirements query = Ok r -> Req.department r = None.
Proof.
  unfold _extract_requirements.
  destruct (extract_experience exp_patterns (Py.lower query)); simpl;
    [|discriminate].
  intros H; injection H as <-. reflexivity.
Qed.

(** ** The case of letters *)

(** [str.lower] sends to a character written without capitals that
    character and, for a letter, its capital; nothing else. *)
Lemma lower_char_letter (c p : ascii) :
  plain p = true -> (Py.lower_char c = p <-> same_letter c p).
Proof.
  intros Hp. unfold same_letter.
  destruct c as [[] [] [] [] [] [] [] []];
    (split;
     [ intros <-; vm_compute in Hp;
       first [ discriminate Hp
             | left; reflexivity
             | right; split; reflexivity ]
     | intros [<- | [Hb He]];
       [ vm_compute in Hp; first [discriminate Hp | reflexivity]
       | apply (f_equal ascii_of_N) in He;
         unfold Py.code in He; rewrite ascii_N_embedding in He; subst p;
         vm_compute in Hb; first [discriminate Hb | reflexivity] ] ]).
Qed.

Lemma same_text_lower (text pattern : string) :
  all_chars plain pattern = true ->
  (Py.lower text = pattern <-> same_text text pattern).
Proof.
  revert pattern. induction text as [|c t IH]; intros [|p q] Hp; simpl.
  - tauto.
  - split; [discriminate | tauto].
  - split; [discriminate | tauto].
  - simpl in Hp. apply andb_true_iff in Hp as [Hc Hq].
    rewrite <- (lower_char_letter c p Hc), <- (IH q Hq).
    split; [intros H; injection H; auto | intros [-> ->]; reflexivity].
Qed.

Lemma lower_split (s a b : string) :
  Py.lower s = a ++ b ->
  exists a0 b0, s = a0 ++ b0 /\ Py.lower a0 = a /\ Py.lower b0 = b.
Proof.
  revert s. induction a as [|x a IH]; intros s H.
  - exists "", s. auto.
  - destruct s as [|c s]; [discriminate|]. simpl in H.
    injection H as Hc H. destruct (IH s H) as (a0 & b0 & -> & Ha & Hb).
    exists (String c a0), b0. simpl. rewrite Hc, Ha. auto.
Qed.

(** A pattern without capitals occurs in the lower-cased text exactly when
    it occurs in the text whatever the case. *)
Lemma occurs_lower_iff (pattern text : string) :
  all_chars plain pattern = true ->
  (occurs pattern (Py.lower text) <-> occurs_ignoring_case pattern text).
Proof.
  intros Hp. split.
  - intros (pre & post & H).
    apply lower_split in H as (a0 & r0 & -> & Ha & H).
    apply lower_split in H as (m0 & b0 & -> & Hm & Hb).
    exists a0, m0, b0. split; [reflexivity|]. now apply same_text_lower.
  - intros (pre & mid & post & -> & H).
    apply same_text_lower in H; [|exact Hp].
    exists (Py.lower pre), (Py.lower post). now rewrite !lower_app, H.
Qed.

Lemma vocabulary_is_plain (skill : string) :
  In skill common_skills -> all_chars plain skill = true.
Proof.
  assert (forallb (all_chars plain) common_skills = true) as H
      by reflexivity.
  rewrite forallb_forall in H. apply H.
Qed.

Lemma contains_ignoring_case (pattern text : string) :
  all_chars plain pattern = true ->
  (Py.contains pattern (Py.lower text) = true
   <-> occurs_ignoring_case pattern text).
Proof.
  intros Hp. now rewrite contains_occurs, occurs_lower_iff.
Qed.

(** Counterexample to C6: the text [available] occurs in the query, and
    no requirement of availability is produced, for [int] refuses the 4301
    digits of the number of years and the extraction raises. *)
Lemma long_number_yields_no_availability :
  occurs_ignoring_case
    "available" (copies 4301 "7" ++ " years experience, available")
  /\ _extract_requirements
       (copies 4301 "7" ++ " years experience, available")
     = Raise ValueError
  /\ ~ (exists r,
          _extract_requirements
            (copies 4301 "7" ++ " years experience, available") = Ok r
          /\ Req.availability r = Some (value AVAILABLE)).
Proof.
  assert (_extract_requirements
            (copies 4301 "7" ++ " years experience, available")
          = Raise ValueError) as H by (vm_compute; reflexivity).
  split; [|split; [exact H|]].
  - exists (copies 4301 "7" ++ " years experience, "), "available", "".
    split; [vm_compute; reflexivity|].
    simpl. repeat (split; [left; reflexivity|]). exact I.
  - intros (r & Hr & _). rewrite H in Hr. discriminate.
Qed.

(** C6, amended. Whenever the extraction returns, and it does for every
    query without a run of more than 4300 digits, the availability it
    requires is [available] exactly when the text [available] occurs in the
    query, whatever the case of its letters; otherwise there is none: it is
    never [busy] nor [on_leave]. *)
Theorem availability_iff_available_occurs (query : string) :
  (digits_fit query -> exists r, _extract_requirements query = Ok r)
  /\ forall r,
      _extract_requirements query = Ok r ->
      (Req.availability r = Some (value AVAILABLE)
       <-> occurs_ignoring_case "available" query)
      /\ (Req.availability r = None
          <-> ~ occurs_ignoring_case "available" query)
      /\ Req.availability r <> Some (value BUSY)
      /\ Req.availability r <> Some (value ON_LEAVE).
Proof.
  split; [apply extraction_accepts|]. intros r Hr.
  rewrite (extract_availability _ _ Hr),
    <- (contains_ignoring_case "available" query eq_refl).
  destruct (Py.contains "available" (Py.lower query)); simpl.
  - repeat split; try discriminate; try reflexivity.
    intros H; exfalso; apply H; reflexivity.
  - repeat split; try discriminate; try reflexivity.
Qed.

Lemma availability_iff_available_occurs_witness :
  exists r, _extract_requirements "Who is AVAILABLE in May?" = Ok r
            /\ Req.availability r = Some (value AVAILABLE).
Proof.
  destruct (availability_iff_available_occurs "Who is AVAILABLE in May?")
    as [Hex Hiff].
  destruct Hex as [r Hr]; [vm_compute; discriminate|].
  exists r. split; [exact Hr|]. apply (Hiff r Hr).
  exists "Who is ", "AVAILABLE", " in May?". split; [reflexivity|].
  simpl. repeat (split; [right; split; reflexivity|]). exact I.
Defined.

(** The occurrence is one of text, not of a word: [unavailable] asks for
    availability too. *)
Example unavailable_asks_for_available :
  exists r, _extract_requirements "who is unavailable" = Ok r
            /\ Req.availability r = Some "available".
Proof. eexists; split; [vm_compute; reflexivity | reflexivity]. Qed.

(** ** The filter and the fields it reads *)

(** C10. Whenever the extraction returns, and it does for every query
    without a run of more than 4300 digits, it leaves the department at
    [None]; and the filter reads neither the department of the employee nor
    the one of the requirements: the department never changes who
    passes. *)
Theorem department_never_affects_filter :
  (forall query r,
      _extract_requirements query = Ok r -> Req.department r = None)
  /\ (forall query,
         digits_fit query ->
         exists r, _extract_requirements query = Ok r
                   /\ Req.department r = None)
  /\ (forall emp d requirements,
         _matches_requirements (set_department emp d) requirements
         = _matches_requirements emp requirements)
  /\ (forall emp d requirements,
         _matches_requirements emp (req_set_department requirements d)
         = _matches_requirements emp requirements).
Proof.
  split; [|split; [|split]].
  - exact extract_department.
  - intros query H. destruct (extraction_accepts query H) as [r Hr].
    exists r. split; [exact Hr | exact (extract_department _ _ Hr)].
  - reflexivity.
  - reflexivity.
Qed.

Lemma department_never_affects_filter_witness :
  exists r, _extract_requirements "python developers in the Engineering department"
            = Ok r
            /\ Req.department r = None.
Proof.
  destruct department_never_affects_filter as (_ & H & _).
  apply (H "python developers in the Engineering department").
  vm_compute. discriminate.
Defined.

(** C9. With a threshold of 0 the filter behaves as with no threshold at
    all, and the years of experience of the employee do not matter, not even
    negative ones. *)
Theorem zero_threshold_is_no_threshold
        (emp : Employee) (requirements : Req.t) :
  Req.experience requirements = Some 0 ->
  _matches_requirements emp requirements
  = _matches_requirements emp (req_set_experience requirements None)
  /\ forall years,
      _matches_requirements (set_experience_years emp years) requirements
      = _matches_requirements emp requirements.
Proof.
  intros H. unfold _matches_requirements. rewrite H. simpl. split; reflexivity.
Qed.

Example zero_years_extracted :
  _extract_requirements "0 years experience" = Ok zero_years.
Proof. reflexivity. Qed.

Lemma zero_threshold_witness :
  Req.experience zero_years = Some 0
  /\ (_matches_requirements (set_experience_years Sample.A (-1)) zero_years
      = _matches_requirements (set_experience_years Sample.A (-1))
                              (req_set_experience zero_years None)
      /\ forall years,
          _matches_requirements
            (set_experience_years (set_experience_years Sample.A (-1)) years)
            zero_years
          = _matches_requirements (set_experience_years Sample.A (-1))
                                  zero_years).
Proof.
  split; [reflexivity|].
  apply (zero_threshold_is_no_threshold
           (set_experience_years Sample.A (-1)) zero_years).
  reflexivity.
Defined.

(** ** The experience phrase *)

Lemma search_found (r : regex) (a b : string) (m : groups) :
  match_at r b = Some m -> exists m', search r (a ++ b) = Some m'.
Proof.
  intros H. induction a as [|c a IH]; simpl.
  - destruct b; simpl; rewrite H; eauto.
  - destruct (match_at r (String c (a ++ b))); eauto.
Qed.

Lemma search_here (r : regex) (s : string) (m : groups) :
  match_at r s = Some m -> search r s = Some m.
Proof. intros H. destruct s; simpl; now rewrite H. Qed.

Lemma pattern_1_needs_digit (c : ascii) (s : string) :
  Py.is_digit c = false -> match_at exp_pattern_1 (String c s) = None.
Proof. intros H. unfold match_at. simpl. now rewrite H. Qed.

Lemma pattern_1_skips (pre s : string) :
  no_digit pre = true -> s <> "" ->
  search exp_pattern_1 (pre ++ s) = search exp_pattern_1 s.
Proof.
  intros H Hs. induction pre as [|c pre IH]; [reflexivity|].
  simpl in H. apply andb_true_iff in H as [Hc H].
  apply negb_true_iff in Hc.
  change (String c pre ++ s) with (String c (pre ++ s)).
  cbn [search]. rewrite (pattern_1_needs_digit c _ Hc). now apply IH.
Qed.

Lemma pattern_1_on_phrase (post : string) :
  match_at exp_pattern_1 ("3 years experience" ++ post)
  = Some [(2%nat, "experience"); (1%nat, "3")].
Proof.
  unfold match_at. simpl.
  pose proof (consumed_app "experience" post) as H2.
  pose proof (consumed_app "3" (" years experience" ++ post)) as H1.
  cbn [append] in H1, H2. now rewrite H1, H2.
Qed.

Lemma no_digit_lower (s : string) : no_digit (Py.lower s) = no_digit s.
Proof.
  induction s as [|c s IH]; simpl; [reflexivity|].
  now rewrite is_digit_lower, IH.
Qed.

Lemma occurs_lower (n s : string) :
  Py.lower n = n -> occurs n s -> occurs n (Py.lower s).
Proof.
  intros Hn [pre [post ->]]. exists (Py.lower pre), (Py.lower post).
  now rewrite !lower_app, Hn.
Qed.

Lemma experience_found (q pre post : string) (e : option Z) :
  q = pre ++ "3 years experience" ++ post ->
  extract_experience exp_patterns q = Ok e ->
  exists n, e = Some n.
Proof.
  intros ->. unfold exp_patterns. cbn [extract_experience].
  destruct (search_found exp_pattern_1 pre _ _ (pattern_1_on_phrase post))
    as [m Hm].
  rewrite Hm. destruct (int_group_1 m) as [n|]; simpl; [|discriminate].
  intros H; injection H as <-. eauto.
Qed.

Lemma experience_is_3 (pre post : string) :
  no_digit pre = true ->
  extract_experience exp_patterns (pre ++ "3 years experience" ++ post)
  = Ok (Some 3).
Proof.
  intros H. unfold exp_patterns. cbn [extract_experience].
  rewrite (pattern_1_skips pre _ H) by (simpl; discriminate).
  rewrite (search_here _ _ _ (pattern_1_on_phrase post)).
  reflexivity.
Qed.

(** The phrase with no digit before it: the extraction returns, whatever
    follows. *)
Lemma phrase_extracts_3 (query pre post : string) :
  query = pre ++ "3 years experience" ++ post ->
  no_digit pre = true ->
  exists r, _extract_requirements query = Ok r /\ Req.experience r = Some 3.
Proof.
  intros -> Hd. unfold _extract_requirements. rewrite !lower_app.
  change (Py.lower "3 years experience") with "3 years experience".
  rewrite experience_is_3 by now rewrite no_digit_lower.
  simpl. eexists. split; reflexivity.
Qed.

(** Counterexample to C7: on the very query of the example a skill is
    extracted, for the text [ai] occurs in [available]. *)
Lemma example_query_extracts_a_skill :
  occurs "3 years experience" "3 years experience, available"
  /\ occurs "available" "3 years experience, available"
  /\ _extract_requirements "3 years experience, available"
     = Ok {| Req.skills := ["ai"]; Req.experience := Some 3;
             Req.projects := []; Req.availability := Some "available";
             Req.department := None |}
  /\ ~ (exists r, _extract_requirements "3 years experience, available" = Ok r
                  /\ claimed r).
Proof.
  split; [exists "", ", available"; reflexivity|].
  split; [exists "3 years experience, ", ""; reflexivity|].
  split; [reflexivity|].
  intros (r & Hr & _ & _ & Hs).
  vm_compute in Hr. injection Hr as <-. discriminate.
Qed.

(** The threshold is that of the leftmost phrase, and it takes every digit
    in front of [years]. *)
Example surrounding_text_changes_the_threshold :
  (exists r, _extract_requirements "13 years experience, available" = Ok r
             /\ Req.experience r = Some 13)
  /\ (exists r, _extract_requirements
                  "5 years exp or 3 years experience, available" = Ok r
                /\ Req.experience r = Some 5).
Proof.
  split; eexists; (split; [vm_compute; reflexivity | reflexivity]).
Qed.

(** Whoever asks for [available] asks for the skill [ai] as well. *)
Lemma available_brings_ai (query : string) (r : Req.t) :
  _extract_requirements query = Ok r ->
  occurs "available" (Py.lower query) ->
  In "ai" (Req.skills r).
Proof.
  intros Hr Hav. rewrite (extract_skills_of _ _ Hr). apply filter_In. split.
  - simpl; tauto.
  - apply contains_occurs. apply (occurs_trans _ "available"); [|exact Hav].
    exists "av", "lable". reflexivity.
Qed.

(** C7, amended. On a query that contains [3 years experience] and
    [available], whenever the extraction returns it yields the availability
    [available], as skills the terms of the vocabulary that occur in the
    query whatever the case, and a threshold; it returns when no run of
    digits is longer than 4300, and it returns the threshold 3 when no
    digit stands before the phrase. *)
Theorem extraction_of_phrase_and_available (query : string) :
  occurs "3 years experience" query ->
  occurs "available" query ->
  (forall r,
      _extract_requirements query = Ok r ->
      Req.availability r = Some "available"
      /\ (forall skill, In skill (Req.skills r)
                        <-> In skill common_skills
                            /\ occurs_ignoring_case skill query)
      /\ (exists n, Req.experience r = Some n))
  /\ (digits_fit query -> exists r, _extract_requirements query = Ok r)
  /\ (forall pre post,
         query = pre ++ "3 years experience" ++ post ->
         no_digit pre = true ->
         exists r, _extract_requirements query = Ok r
                   /\ Req.experience r = Some 3).
Proof.
  intros Hexp Hav. split; [|split].
  - intros r Hr.
    apply (occurs_lower _ _ eq_refl) in Hav.
    assert (Py.contains "available" (Py.lower query) = true) as Hc
        by now apply contains_occurs.
    split; [|split].
    + now rewrite (extract_availability _ _ Hr), Hc.
    + intros skill. rewrite (extract_skills_of _ _ Hr).
      unfold extract_skills. rewrite filter_In. split.
      * intros [Hin H]. split; [exact Hin|].
        now apply (contains_ignoring_case _ _ (vocabulary_is_plain _ Hin)).
      * intros [Hin H]. split; [exact Hin|].
        now apply (contains_ignoring_case _ _ (vocabulary_is_plain _ Hin)).
    + apply (occurs_lower _ _ eq_refl) in Hexp as (pre & post & Hq).
      apply (experience_found _ _ _ _ Hq), (extract_experience_of _ _ Hr).
  - apply extraction_accepts.
  - intros pre post Hq Hd. now apply (phrase_extracts_3 query pre post).
Qed.

Lemma extraction_of_phrase_and_available_witness :
  exists r, _extract_requirements "3 years experience, available" = Ok r
    /\ Req.availability r = Some "available"
    /\ (forall skill, In skill (Req.skills r)
                      <-> In skill common_skills
                          /\ occurs_ignoring_case
                               skill "3 years experience, available")
    /\ Req.experience r = Some 3.
Proof.
  destruct (extraction_of_phrase_and_available
              "3 years experience, available") as (Hall & _ & H3).
  - exists "", ", available". reflexivity.
  - exists "3 years experience, ", "". reflexivity.
  - destruct (H3 "" ", available" eq_refl eq_refl) as (r & Hr & He).
    destruct (Hall r Hr) as (Ha & Hs & _).
    exists r. auto.
Defined.

(** ** The ranking *)

Section Ranking.

Variable similarities : list Q.

Let score := score_at similarities.

Lemma insert_perm (i : nat) (l : list nat) :
  Permutation (insert similarities i l) (i :: l).
Proof.
  induction l as [|j l IH]; simpl; [reflexivity|].
  destruct (Qle_bool _ _); [reflexivity|].
  rewrite IH. apply perm_swap.
Qed.

Lemma insert_sorted (i : nat) (l : list nat) :
  StronglySorted (ascending similarities) l ->
  StronglySorted (ascending similarities) (insert similarities i l).
Proof.
  induction l as [|j l IH]; simpl; intros Hs.
  - repeat constructor.
  - inversion Hs as [|? ? Hs' Hj]; subst.
    destruct (Qle_bool (score_at similarities i) (score_at similarities j))
      eqn:E.
    + apply Qle_bool_iff in E. constructor; [exact Hs|].
      constructor; [exact E|].
      eapply Forall_impl; [|exact Hj]. intros x Hx.
      unfold ascending in *. eapply Qle_trans; eassumption.
    + assert (score j < score i)%Q as Hlt.
      { apply Qnot_le_lt. intros H. apply Qle_bool_iff in H.
        unfold score in H. congruence. }
      constructor; [now apply IH|].
      apply (Permutation_Forall (Permutation_sym (insert_perm i l))).
      constructor; [now apply Qlt_le_weak | exact Hj].
Qed.

Lemma sort_from (start n : nat) :
  let l := fold_right (insert similarities) [] (seq start n) in
  Permutation l (seq start n) /\ StronglySorted (ascending similarities) l.
Proof.
  revert start. induction n as [|n IH]; intros start; simpl.
  - split; constructor.
  - destruct (IH (S start)) as [Hp Hs]. split.
    + rewrite insert_perm. now constructor.
    + now apply insert_sorted.
Qed.

Lemma argsort_perm :
  Permutation (argsort similarities) (seq 0 (List.length similarities)).
Proof. apply sort_from. Qed.

Lemma argsort_sorted :
  StronglySorted (ascending similarities) (argsort similarities).
Proof. apply sort_from. Qed.

End Ranking.

Lemma StronglySorted_app {A} (R : A -> A -> Prop) (l1 l2 : list A) :
  StronglySorted R l1 -> StronglySorted R l2 ->
  (forall x y, In x l1 -> In y l2 -> R x y) ->
  StronglySorted R (l1 ++ l2)%list.
Proof.
  induction l1 as [|a l1 IH]; simpl; intros H1 H2 H; [exact H2|].
  inversion H1 as [|? ? H1' Ha]; subst.
  constructor.
  - apply IH; auto.
  - apply Forall_app. split; [exact Ha|].
    apply Forall_forall. intros y Hy. apply H; auto.
Qed.

Lemma StronglySorted_app_inv {A} (R : A -> A -> Prop) (l1 l2 : list A) :
  StronglySorted R (l1 ++ l2)%list ->
  forall x y, In x l1 -> In y l2 -> R x y.
Proof.
  induction l1 as [|a l1 IH]; simpl; intros H x y Hx Hy; [destruct Hx|].
  inversion H as [|? ? Hs Ha]; subst.
  destruct Hx as [<-|Hx].
  - rewrite Forall_forall in Ha. apply Ha, in_or_app. now right.
  - now apply IH.
Qed.

Lemma StronglySorted_rev {A} (R : A -> A -> Prop) (l : list A) :
  StronglySorted R l -> StronglySorted (fun a b => R b a) (rev l).
Proof.
  induction 1 as [|a l Hs IH Ha]; simpl; [constructor|].
  apply StronglySorted_app; [exact IH | repeat constructor|].
  intros x y Hx [<-|[]]. apply in_rev in Hx.
  rewrite Forall_forall in Ha. now apply Ha.
Qed.

Lemma StronglySorted_weaken {A} (R S : A -> A -> Prop) (l : list A) :
  (forall a b, R a b -> S a b) -> StronglySorted R l -> StronglySorted S l.
Proof.
  intros HRS. induction 1 as [|a l Hs IH Ha]; constructor; [exact IH|].
  eapply Forall_impl; [|exact Ha]. auto.
Qed.

(** The reverse of any ascending order of the indices holds every index
    once and never lets the score increase, however the order takes equal
    scores. *)
Lemma reversed_order (similarities : list Q) (order : list nat) :
  Permutation order (seq 0 (List.length similarities)) ->
  StronglySorted (ascending similarities) order ->
  Permutation (rev order) (seq 0 (List.length similarities))
  /\ StronglySorted (descending similarities) (rev order).
Proof.
  intros Hp Hs. split.
  - now rewrite <- Permutation_rev.
  - unfold descending. now apply StronglySorted_rev.
Qed.

Lemma ranking_perm (similarities : list Q) :
  Permutation (ranking similarities) (seq 0 (List.length similarities)).
Proof.
  apply reversed_order; [apply argsort_perm | apply argsort_sorted].
Qed.

Lemma ranking_sorted (similarities : list Q) :
  StronglySorted (descending similarities) (ranking similarities).
Proof.
  apply reversed_order; [apply argsort_perm | apply argsort_sorted].
Qed.

(** Counterexample to C5: of two equal scores the second employee is
    ranked first. *)
Lemma equal_scores_rank_in_reverse :
  ranking [1 # 2; 1 # 2]%Q = [1; 0]%nat
  /\ ~ ranks_stably [1 # 2; 1 # 2]%Q (ranking [1 # 2; 1 # 2]%Q).
Proof.
  split; [reflexivity|].
  change (ranking [1 # 2; 1 # 2]%Q) with [1; 0]%nat.
  intros H. inversion H as [|? ? _ Hf]; subst.
  inversion Hf as [|? ? [Hlt|[_ Hlt]] _]; subst.
  - vm_compute in Hlt. discriminate.
  - lia.
Qed.

(** C5, amended. The ranking holds the index of every employee exactly
    once, and the score never increases along it.  Nothing is said of two
    employees with equal scores: their order is the library's. *)
Theorem ranking_is_descending (similarities : list Q) :
  Permutation (ranking similarities) (seq 0 (List.length similarities))
  /\ StronglySorted
       (fun a b => (score_at similarities b <= score_at similarities a)%Q)
       (ranking similarities).
Proof.
  split; [apply ranking_perm | apply ranking_sorted].
Qed.

(** ** The filter against the constraints in words *)




Lemma mem_In (x : string) (xs : list string) :
  Py.mem x xs = true <-> In x xs.
Proof.
  unfold Py.mem. rewrite existsb_exists. split.
  - intros [y [Hy E]]. apply String.eqb_eq in E. now subst.
  - intros H. exists x. split; [exact H | apply String.eqb_refl].
Qed.




(** ** The loops *)

Lemma getitem_ok {A} (xs : list A) (i : nat) :
  (i < List.length xs)%nat -> exists x, getitem xs i = Ok x /\ nth_error xs i = Some x.
Proof.
  intros H. unfold getitem. destruct (nth_error xs i) as [x|] eqn:E; [eauto|].
  apply nth_error_None in E. lia.
Qed.

Lemma len_snoc {A} (xs : list A) (x : A) : Py.len (xs ++ [x])%list = Py.len xs + 1.
Proof. unfold Py.len. rewrite length_app. simpl. lia. Qed.

Lemma filter_loop_spec (employees : list Employee) (similarities : list Q)
      (requirements : Req.t) (max_results : Z) (indices : list nat) :
  in_range employees similarities indices ->
  forall res scs,
  exists added added_scores,
    filter_loop employees similarities requirements max_results indices res scs
    = Ok ((res ++ added)%list, (scs ++ added_scores)%list)
    /\ List.length added = List.length added_scores
    /\ Forall (fun e => In e employees
                        /\ _matches_requirements e requirements = true) added
    /\ Py.len (res ++ added)%list <= Z.max (Py.len res + 1) max_results
    /\ (max_results <= Py.len res -> (List.length added <= 1)%nat)
    /\ (none_passes employees requirements indices <-> added = []).
Proof.
  induction indices as [|idx rest IH]; intros Hr res scs.
  - exists [], []. simpl. rewrite !app_nil_r.
    repeat split; auto; try lia. constructor.
  - inversion Hr as [|? ? [He Hs] Hr']; subst.
    destruct (getitem_ok employees idx He) as (emp & Ge & Ne).
    destruct (getitem_ok similarities idx Hs) as (score & Gs & Ns).
    cbn [filter_loop]. rewrite Ge, Gs. cbn [bind].
    destruct (_matches_requirements emp requirements) eqn:M.
    + destruct (Z.geb_spec (Py.len (res ++ [emp])%list) max_results) as [Hge|Hlt].
      * exists [emp], [score]. rewrite len_snoc in *.
        repeat split; auto; try lia.
        -- repeat constructor; [eapply nth_error_In; eauto | exact M].
        -- intros H. inversion H as [|? ? H1 _]; subst.
           specialize (H1 emp Ne). congruence.
        -- discriminate.
      * destruct (IH Hr' (res ++ [emp])%list (scs ++ [score])%list)
          as (added & added_scores & E & Hl & Hf & Hb & Hone & Hn).
        exists (emp :: added), (score :: added_scores).
        rewrite <- !app_assoc in E. simpl in E.
        rewrite len_snoc in *. rewrite <- app_assoc in Hb. simpl in Hb.
        repeat split; auto; try lia.
        -- simpl. now rewrite Hl.
        -- constructor; [|exact Hf]. split; [eapply nth_error_In; eauto | exact M].
        -- intros H. inversion H as [|? ? H1 _]; subst.
           specialize (H1 emp Ne). congruence.
        -- discriminate.
    + destruct (IH Hr' res scs)
        as (added & added_scores & E & Hl & Hf & Hb & Hone & Hn).
      exists added, added_scores.
      repeat split; auto.
      * intros H. inversion H; subst. now apply Hn.
      * intros H. constructor; [|now apply Hn].
        intros emp' Ne'. congruence.
Qed.

Lemma take_loop_spec (employees : list Employee) (similarities : list Q)
      (indices : list nat) :
  in_range employees similarities indices ->
  forall res scs,
  exists added added_scores,
    take_loop employees similarities indices res scs
    = Ok ((res ++ added)%list, (scs ++ added_scores)%list)
    /\ Forall2 (fun idx e => nth_error employees idx = Some e) indices added
    /\ Forall2 (fun idx s => nth_error similarities idx = Some s)
               indices added_scores.
Proof.
  induction indices as [|idx rest IH]; intros Hr res scs.
  - exists [], []. simpl. rewrite !app_nil_r. repeat split; constructor.
  - inversion Hr as [|? ? [He Hs] Hr']; subst.
    destruct (getitem_ok employees idx He) as (emp & Ge & Ne).
    destruct (getitem_ok similarities idx Hs) as (score & Gs & Ns).
    cbn [take_loop]. rewrite Ge, Gs. cbn [bind].
    destruct (IH Hr' (res ++ [emp])%list (scs ++ [score])%list)
      as (added & added_scores & E & Hf & Hg).
    exists (emp :: added), (score :: added_scores).
    rewrite <- !app_assoc in E. simpl in E.
    repeat split; auto.
Qed.

(** ** Slices of the ranking *)

Lemma in_firstn {A} (n : nat) (xs : list A) (x : A) :
  In x (firstn n xs) -> In x xs.
Proof.
  intros H. rewrite <- (firstn_skipn n xs). apply in_or_app. now left.
Qed.

Lemma slice_to_incl {A} (k : Z) (xs : list A) (x : A) :
  In x (Py.slice_to k xs) -> In x xs.
Proof.
  unfold Py.slice_to. destruct (0 <=? k); apply in_firstn.
Qed.

Lemma slice_to_length {A} (k : Z) (xs : list A) :
  0 <= k -> Py.len (Py.slice_to k xs) <= k.
Proof.
  intros Hk. unfold Py.slice_to, Py.len.
  destruct (Z.leb_spec 0 k); [|lia].
  rewrite length_firstn. lia.
Qed.

Lemma slice_to_0 {A} (xs : list A) : Py.slice_to 0 xs = [].
Proof. reflexivity. Qed.

Lemma slice_slice {A} (k : Z) (xs : list A) :
  0 <= k -> Py.slice_to k (Py.slice_to (k * 2) xs) = firstn (Z.to_nat k) xs.
Proof.
  intros Hk. unfold Py.slice_to.
  destruct (Z.leb_spec 0 k); [|lia]. destruct (Z.leb_spec 0 (k * 2)); [|lia].
  rewrite firstn_firstn. f_equal. lia.
Qed.


Lemma StronglySorted_firstn {A} (R : A -> A -> Prop) (n : nat) (l : list A) :
  StronglySorted R l -> StronglySorted R (firstn n l).
Proof.
  revert n. induction l as [|a l IH]; intros n H.
  - rewrite firstn_nil. constructor.
  - destruct n; [constructor|]. inversion H as [|? ? Hs Ha]; subst.
    simpl. constructor; [now apply IH|].
    rewrite Forall_forall in Ha |- *. intros x Hx. apply Ha.
    eapply in_firstn, Hx.
Qed.

Lemma StronglySorted_filter {A} (R : A -> A -> Prop) (f : A -> bool)
      (l : list A) :
  StronglySorted R l -> StronglySorted R (filter f l).
Proof.
  induction 1 as [|a l Hs IH Ha]; simpl; [constructor|].
  destruct (f a); [|exact IH]. constructor; [exact IH|].
  rewrite Forall_forall in Ha |- *. intros x Hx. apply Ha.
  now apply filter_In in Hx.
Qed.

Lemma StronglySorted_slice {A} (R : A -> A -> Prop) (k : Z) (l : list A) :
  StronglySorted R l -> StronglySorted R (Py.slice_to k l).
Proof.
  unfold Py.slice_to. destruct (0 <=? k); apply StronglySorted_firstn.
Qed.

Lemma NoDup_firstn {A} (n : nat) (l : list A) : NoDup l -> NoDup (firstn n l).
Proof.
  revert n. induction l as [|a l IH]; intros n H.
  - rewrite firstn_nil. constructor.
  - destruct n; [constructor|]. inversion H as [|? ? Ha Hl]; subst.
    simpl. constructor; [|now apply IH].
    intros Hin. apply Ha. eapply in_firstn, Hin.
Qed.

Lemma NoDup_slice {A} (k : Z) (l : list A) : NoDup l -> NoDup (Py.slice_to k l).
Proof. unfold Py.slice_to. destruct (0 <=? k); apply NoDup_firstn. Qed.

Lemma ranking_NoDup (similarities : list Q) : NoDup (ranking similarities).
Proof.
  apply (Permutation_NoDup (Permutation_sym (ranking_perm similarities))).
  apply seq_NoDup.
Qed.



(** ** The engine, once built *)

Section EngineFacts.

Variable vec : Type.
Variable st_encode : string -> vec.
Variable analyze : string -> list string.
Variable tfidf_row : list string -> string -> vec.
Variable cosine : vec -> vec -> Q.

Local Abbreviation init := (RAGSystem_init st_encode analyze tfidf_row).
Local Abbreviation search := (search_employees st_encode tfidf_row cosine).
Local Abbreviation answer := (generate_response st_encode tfidf_row cosine).
Local Abbreviation similarities_of :=
  (query_similarities st_encode tfidf_row cosine).

Lemma init_spec (installed : bool) (emps : list Employee) (sys : RAGSystem vec) :
  init installed emps = Ok sys ->
  employees sys = emps
  /\ List.length (employee_embeddings sys) = List.length emps
  /\ use_sentence_transformers sys = installed
  /\ (installed = false -> emps <> [] /\ exists v, vectorizer sys = Some v).
Proof.
  unfold RAGSystem_init. destruct installed.
  - intros H; injection H as <-. simpl. rewrite !length_map.
    repeat split; discriminate.
  - unfold fit_transform.
    destruct (List.concat (map analyze (map (tfidf_text) emps))) eqn:E;
      [discriminate|].
    simpl. intros H; injection H as <-. simpl. rewrite !length_map.
    repeat split; eauto.
    intros ->. discriminate.
Qed.

Lemma cosine_similarity_ok (x : vec) (Y : list vec) :
  Y <> [] ->
  exists sims, cosine_similarity cosine x Y = Ok sims
               /\ List.length sims = List.length Y.
Proof.
  intros H. destruct Y as [|y Y]; [congruence|].
  eexists. split; [reflexivity|]. now rewrite length_map.
Qed.

Lemma cosine_similarity_length (x : vec) (Y : list vec) (sims : list Q) :
  cosine_similarity cosine x Y = Ok sims -> List.length sims = List.length Y.
Proof.
  destruct Y as [|y Y]; [discriminate|].
  intros H; injection H as <-. apply (length_map (cosine x) (y :: Y)).
Qed.

Lemma similarities_ok (installed : bool) (emps : list Employee)
      (sys : RAGSystem vec) (query : string) :
  init installed emps = Ok sys -> emps <> [] ->
  exists sims, similarities_of sys query = Ok sims.
Proof.
  intros Hi Hne. destruct (init_spec _ _ _ Hi) as (He & Hl & Hu & Hv).
  assert (employee_embeddings sys <> []) as Hemb.
  { intros E. rewrite E in Hl. destruct emps; [congruence | discriminate]. }
  unfold query_similarities. rewrite Hu. destruct installed.
  - destruct (cosine_similarity_ok (st_encode query) _ Hemb) as (sims & -> & _).
    eauto.
  - destruct (Hv eq_refl) as [_ [v ->]]. simpl.
    destruct (cosine_similarity_ok (tfidf_row (fitted_on v) (Py.lower query))
                                   _ Hemb) as (sims & -> & _).
    eauto.
Qed.

Lemma similarities_length (installed : bool) (emps : list Employee)
      (sys : RAGSystem vec) (query : string) (sims : list Q) :
  init installed emps = Ok sys ->
  similarities_of sys query = Ok sims ->
  List.length sims = List.length emps.
Proof.
  intros Hi. destruct (init_spec _ _ _ Hi) as (He & Hl & Hu & Hv).
  unfold query_similarities. rewrite <- Hl.
  destruct (use_sentence_transformers sys).
  - apply cosine_similarity_length.
  - destruct (transform tfidf_row (vectorizer sys) (Py.lower query));
      [|discriminate].
    apply cosine_similarity_length.
Qed.

Lemma ranking_in_range (emps : list Employee) (sims : list Q) (l : list nat) :
  List.length sims = List.length emps ->
  (forall i, In i l -> In i (ranking sims)) ->
  in_range emps sims l.
Proof.
  intros Hl H. apply Forall_forall. intros i Hi.
  apply H in Hi.
  apply (Permutation_in _ (ranking_perm sims)) in Hi.
  apply in_seq in Hi. lia.
Qed.

Lemma top_in_range (emps : list Employee) (sims : list Q) (max_results : Z) :
  List.length sims = List.length emps ->
  in_range emps sims (top_indices sims max_results).
Proof.
  intros Hl. apply ranking_in_range; [exact Hl|].
  intros i. apply slice_to_incl.
Qed.

Lemma fallback_in_range (emps : list Employee) (sims : list Q) (max_results : Z) :
  List.length sims = List.length emps ->
  in_range emps sims (Py.slice_to max_results (top_indices sims max_results)).
Proof.
  intros Hl. apply ranking_in_range; [exact Hl|].
  intros i Hi. eapply slice_to_incl, slice_to_incl, Hi.
Qed.

(** The search of the semantic strategy, from its scores and requirements. *)
Lemma search_semantic (sys : RAGSystem vec) (query : string) (max_results : Z)
      (sims : list Q) (req : Req.t) :
  use_sentence_transformers sys = true ->
  similarities_of sys query = Ok sims ->
  _extract_requirements query = Ok req ->
  search sys query max_results
  = filter_loop (employees sys) sims req max_results
                (top_indices sims max_results) [] [].
Proof.
  unfold search_employees, _search_with_sentence_transformers,
    query_similarities.
  intros -> -> ->. reflexivity.
Qed.

(** The search of the lexical strategy, from its scores and requirements. *)
Lemma search_lexical (sys : RAGSystem vec) (query : string) (max_results : Z)
      (sims : list Q) (req : Req.t) :
  use_sentence_transformers sys = false ->
  similarities_of sys query = Ok sims ->
  _extract_requirements query = Ok req ->
  search sys query max_results
  = ('(filtered_results, filtered_scores) <-
       filter_loop (employees sys) sims req max_results
                   (top_indices sims max_results) [] [] ;;
     match filtered_results with
     | [] => take_loop (employees sys) sims
                       (Py.slice_to max_results (top_indices sims max_results))
                       filtered_results filtered_scores
     | _ => Ok (filtered_results, filtered_scores)
     end).
Proof.
  unfold search_employees, _search_with_tfidf, query_similarities.
  intros ->. destruct (transform tfidf_row (vectorizer sys) (Py.lower query));
    [|discriminate].
  simpl. intros -> ->. reflexivity.
Qed.

(** A query that the extraction refuses is refused by the search, after
    the scores were computed. *)
Lemma search_raises (installed : bool) (emps : list Employee)
      (sys : RAGSystem vec) (query : string) (max_results : Z) (e : exn) :
  init installed emps = Ok sys -> emps <> [] ->
  _extract_requirements query = Raise e ->
  search sys query max_results = Raise e.
Proof.
  intros Hi Hne Hr.
  destruct (init_spec _ _ _ Hi) as (He & Hl & Hu & Hv).
  destruct (similarities_ok _ _ _ query Hi Hne) as [sims Hs].
  revert Hs.
  unfold search_employees, _search_with_sentence_transformers,
    _search_with_tfidf, query_similarities.
  rewrite Hu. destruct installed.
  - intros ->. cbn [bind]. now rewrite Hr.
  - destruct (transform tfidf_row (vectorizer sys) (Py.lower query));
      [|discriminate].
    cbn [bind]. intros ->. cbn [bind]. now rewrite Hr.
Qed.




Lemma fold_left_plus (scores : list Q) (a : Q) :
  (fold_left Qplus scores a == a + fold_right Qplus 0 scores)%Q.
Proof.
  revert a. induction scores as [|x l IH]; intros a; simpl.
  - now rewrite Qplus_0_r.
  - rewrite IH. now rewrite Qplus_assoc.
Qed.

Lemma sum_total (scores : list Q) : (sum scores == fold_right Qplus 0 scores)%Q.
Proof. unfold sum. rewrite fold_left_plus. apply Qplus_0_l. Qed.

(** The response is returned whenever the search is, and it is the one
    without matches when the search has none. *)
Lemma answer_of_search (sys : RAGSystem vec) (query : string)
      (max_results : Z) (res : list Employee) (scs : list Q) :
  search sys query max_results = Ok (res, scs) ->
  exists r, answer sys query max_results = Ok r
            /\ (res = [] -> r = no_match_response).
Proof.
  intros H. unfold generate_response. rewrite H. cbn [bind].
  destruct res as [|e res]; eexists; (split; [reflexivity|]).
  - reflexivity.
  - discriminate.
Qed.

(** C8. When the search yields no employee, the response is the fixed
    apology with no match and confidence 0, and it is returned, not
    raised; when it yields some, they are the matches of the response and
    the confidence is the mean of their scores. *)
Theorem zero_matches_apology_else_mean
        (sys : RAGSystem vec) (query : string) (max_results : Z)
        (res : list Employee) (scs : list Q) :
  search sys query max_results = Ok (res, scs) ->
  (res = [] ->
   answer sys query max_results
   = Ok {| response := apology; matched_employees := [];
           confidence_score := 0%Q |})
  /\ (res <> [] ->
      exists r, answer sys query max_results = Ok r
                /\ matched_employees r = res
                /\ (confidence_score r == mean scs)%Q).
Proof.
  intros H. unfold generate_response. rewrite H. cbn [bind]. split.
  - intros ->. reflexivity.
  - intros Hne. destruct res as [|e res]; [congruence|].
    eexists. split; [reflexivity|]. split; [reflexivity|].
    cbn [confidence_score]. destruct scs as [|x scs]; [reflexivity|].
    unfold mean, Py.len. apply Qdiv_comp; [apply sum_total | reflexivity].
Qed.

(** On a system built from a non-empty list, the search returns for every
    integer once the extraction does. *)
Lemma search_returns (installed : bool) (emps : list Employee)
      (sys : RAGSystem vec) (query : string) (max_results : Z)
      (req : Req.t) :
  init installed emps = Ok sys -> emps <> [] ->
  _extract_requirements query = Ok req ->
  exists res scs, search sys query max_results = Ok (res, scs)
                  /\ List.length res = List.length scs.
Proof.
  intros Hi Hne Hr.
  destruct (init_spec _ _ _ Hi) as (He & Hl & Hu & Hv).
  destruct (similarities_ok _ _ _ query Hi Hne) as [sims Hs].
  pose proof (similarities_length _ _ _ _ _ Hi Hs) as Hlen.
  destruct (filter_loop_spec emps sims req max_results _
              (top_in_range emps sims max_results Hlen) [] [])
    as (added & added_scores & E & Hla & _).
  simpl in E. destruct installed.
  - rewrite (search_semantic sys query max_results sims req Hu Hs Hr), He, E.
    eauto.
  - rewrite (search_lexical sys query max_results sims req Hu Hs Hr), He, E.
    cbn [bind]. destruct added as [|e added]; [|eauto].
    destruct added_scores; [|discriminate].
    destruct (take_loop_spec emps sims _
                (fallback_in_range emps sims max_results Hlen) [] [])
      as (taken & taken_scores & E' & Hf2 & Hg2).
    rewrite E'. simpl. exists taken, taken_scores. split; [reflexivity|].
    apply Forall2_length in Hf2, Hg2. congruence.
Qed.

Lemma search_of_zero (installed : bool) (emps : list Employee)
      (sys : RAGSystem vec) (query : string) (req : Req.t) :
  init installed emps = Ok sys -> emps <> [] ->
  _extract_requirements query = Ok req ->
  search sys query 0 = Ok ([], []).
Proof.
  intros Hi Hne Hr.
  destruct (init_spec _ _ _ Hi) as (He & Hl & Hu & Hv).
  destruct (similarities_ok _ _ _ query Hi Hne) as [sims Hs].
  destruct installed.
  - now rewrite (search_semantic sys query 0 sims req Hu Hs Hr).
  - now rewrite (search_lexical sys query 0 sims req Hu Hs Hr).
Qed.

(** The response is returned for every integer once the extraction
    returns, and raised for every integer once the extraction raises. *)
Lemma answer_returns (installed : bool) (emps : list Employee)
      (sys : RAGSystem vec) (query : string) (max_results : Z)
      (req : Req.t) :
  init installed emps = Ok sys -> emps <> [] ->
  _extract_requirements query = Ok req ->
  exists r, answer sys query max_results = Ok r.
Proof.
  intros Hi Hne Hr.
  destruct (search_returns _ _ _ query max_results req Hi Hne Hr)
    as (res & scs & H & _).
  destruct (answer_of_search _ _ _ _ _ H) as (r & Ha & _). eauto.
Qed.

Lemma answer_raises (installed : bool) (emps : list Employee)
      (sys : RAGSystem vec) (query : string) (max_results : Z) (e : exn) :
  init installed emps = Ok sys -> emps <> [] ->
  _extract_requirements query = Raise e ->
  answer sys query max_results = Raise e.
Proof.
  intros Hi Hne Hr. unfold generate_response.
  now rewrite (search_raises _ _ _ query max_results e Hi Hne Hr).
Qed.

(** C3, amended. [generate_response] has no check of [max_results]: on a
    system built from a non-empty list and a query without a run of more
    than 4300 digits it returns a response for every integer
    [max_results], positive or not, and with 0 the response without
    matches; and a search without matches gives that response, not an
    error. *)
Theorem no_error_for_any_max_results
        (installed : bool) (emps : list Employee) (sys : RAGSystem vec)
        (query : string) (max_results : Z) :
  init installed emps = Ok sys ->
  emps <> [] ->
  (digits_fit query ->
   (exists r, answer sys query max_results = Ok r)
   /\ answer sys query 0 = Ok no_match_response)
  /\ (forall scs, search sys query max_results = Ok ([], scs) ->
                  answer sys query max_results = Ok no_match_response).
Proof.
  intros Hi Hne. split.
  - intros Hd. destruct (extraction_accepts query Hd) as [req Hr]. split.
    + exact (answer_returns _ _ _ query max_results req Hi Hne Hr).
    + destruct (answer_of_search _ _ _ _ _
                  (search_of_zero _ _ _ query req Hi Hne Hr))
        as (r & Ha & H0).
      now rewrite Ha, H0.
  - intros scs H.
    destruct (answer_of_search _ _ _ _ _ H) as (r & Ha & H0).
    now rewrite Ha, H0.
Qed.

(** C4, amended. The constructor has no check of its own for an empty
    list: with the lexical strategy the vectorizer refuses the empty
    corpus and the [ValueError] leaves the constructor; with the semantic
    strategy the constructor returns a system whose index is empty. *)
Theorem empty_list_fails_only_in_lexical :
  init false [] = Raise ValueError
  /\ exists sys, init true [] = Ok sys
                 /\ employees sys = []
                 /\ employee_embeddings sys = []
                 /\ use_sentence_transformers sys = true.
Proof.
  split; [reflexivity|]. eexists. split; [reflexivity|].
  repeat split.
Qed.

(** What that system is worth: every query on it raises. *)
Lemma empty_index_is_unusable (sys : RAGSystem vec) (query : string)
      (max_results : Z) :
  init true [] = Ok sys ->
  answer sys query max_results = Raise ValueError.
Proof.
  intros H. injection H as <-. reflexivity.
Qed.

End EngineFacts.

(** * The engine on the sample *)

Example sample_systems :
  Sample.init false Sample.staff = Ok Sample.lexical
  /\ Sample.init true Sample.staff = Ok Sample.semantic.
Proof. split; reflexivity. Qed.

Example sample_scenario :
  Sample.search Sample.lexical
    "Find Python developers with 3+ years experience who are available" 5
  = Ok ([Sample.C; Sample.A], [4; 4]%Q).
Proof. reflexivity. Qed.


(** The fallback on the sample: nobody has the 20 years that the query asks
    for; the lexical strategy returns the two employees with the greatest
    scores all the same, the semantic one returns nothing. *)
Example fallback_on_sample :
  Sample.search Sample.lexical "python aws c with 20 years" 2
  = Ok ([Sample.C; Sample.A], [4; 2]%Q)
  /\ Sample.search Sample.semantic "python aws c with 20 years" 2
     = Ok ([], []).
Proof. split; reflexivity. Qed.


(** Counterexample to C3: with a [max_results] of 0 or below the response
    is returned, nothing is raised. *)
Lemma non_positive_max_results_is_answered :
  Sample.answer Sample.lexical "hello" 0
  = Ok {| response := apology; matched_employees := [];
          confidence_score := 0%Q |}
  /\ (exists r, Sample.answer Sample.lexical "hello" (-1) = Ok r
                /\ matched_employees r = [Sample.C])
  /\ ~ (forall max_results, max_results <= 0 ->
          exists e, Sample.answer Sample.lexical "hello" max_results = Raise e).
Proof.
  split; [reflexivity|]. split.
  - eexists. split; [vm_compute; reflexivity | reflexivity].
  - intros H. destruct (H 0 (Z.le_refl 0)) as [e He].
    vm_compute in He. discriminate.
Qed.

Lemma no_error_for_any_max_results_witness :
  (exists r, Sample.answer Sample.lexical "hello" (-1) = Ok r)
  /\ Sample.answer Sample.lexical "hello" 0 = Ok no_match_response.
Proof.
  destruct (no_error_for_any_max_results
              _ Sample.encode Sample.words Sample.row Sample.overlap
              false Sample.staff Sample.lexical "hello" (-1)) as [H _].
  - reflexivity.
  - discriminate.
  - apply H. vm_compute. discriminate.
Defined.

Lemma zero_matches_apology_else_mean_witness :
  (@nil Employee = [] ->
   Sample.answer Sample.semantic "Java available" 1 = Ok no_match_response)
  /\ (@nil Employee <> [] ->
      exists r, Sample.answer Sample.semantic "Java available" 1 = Ok r
                /\ matched_employees r = []
                /\ (confidence_score r == mean [])%Q).
Proof.
  apply (zero_matches_apology_else_mean
           _ Sample.encode Sample.row Sample.overlap
           Sample.semantic "Java available" 1 [] []).
  reflexivity.
Defined.

(** With matches: the confidence is the mean of the two scores. *)
Example confidence_on_sample :
  exists r,
    Sample.answer Sample.lexical
      "Find Python developers with 3+ years experience who are available" 5
    = Ok r
    /\ matched_employees r = [Sample.C; Sample.A]
    /\ (confidence_score r == 4)%Q.
Proof.
  eexists. split; [vm_compute; reflexivity|]. split; reflexivity.
Qed.

(** Counterexample to C4: with the semantic strategy the constructor
    returns on the empty list. *)
Lemma empty_list_is_accepted_by_semantic :
  Sample.init true []
  = Ok {| employees := []; employee_embeddings := []; employee_texts := [];
          vectorizer := None; use_sentence_transformers := true |}
  /\ ~ (exists e, Sample.init true [] = Raise e).
Proof.
  split; [reflexivity|]. intros [e H]. discriminate.
Qed.

(** * Further properties of the engine *)

(** ** The loop, exactly *)

Lemma passing_cons (employees : list Employee) (requirements : Req.t)
      (idx : nat) (rest : list nat) (emp : Employee) :
  nth_error employees idx = Some emp ->
  passing employees requirements (idx :: rest)
  = if _matches_requirements emp requirements
    then idx :: passing employees requirements rest
    else passing employees requirements rest.
Proof. intros H. unfold passing. simpl. now rewrite H. Qed.

Lemma filter_loop_exact (employees : list Employee) (similarities : list Q)
      (requirements : Req.t) (max_results : Z) (indices : list nat) :
  in_range employees similarities indices ->
  forall res scs,
    Py.len res < max_results ->
    exists added added_scores,
      filter_loop employees similarities requirements max_results indices
                  res scs
      = Ok ((res ++ added)%list, (scs ++ added_scores)%list)
      /\ Forall2 (fun idx e => nth_error employees idx = Some e)
                 (firstn (Z.to_nat (max_results - Py.len res))
                         (passing employees requirements indices)) added
      /\ Forall2 (fun idx s => nth_error similarities idx = Some s)
                 (firstn (Z.to_nat (max_results - Py.len res))
                         (passing employees requirements indices))
                 added_scores.
Proof.
  induction indices as [|idx rest IH]; intros Hr res scs Hlt.
  - exists [], []. simpl. rewrite !app_nil_r, firstn_nil.
    repeat split; constructor.
  - inversion Hr as [|? ? [He Hs] Hr']; subst.
    destruct (getitem_ok employees idx He) as (emp & Ge & Ne).
    destruct (getitem_ok similarities idx Hs) as (score & Gs & Ns).
    cbn [filter_loop]. rewrite Ge, Gs. cbn [bind].
    rewrite (passing_cons _ _ _ _ _ Ne).
    destruct (_matches_requirements emp requirements) eqn:M.
    + replace (Z.to_nat (max_results - Py.len res))
        with (S (Z.to_nat (max_results - Py.len res - 1))) by lia.
      cbn [firstn].
      destruct (Z.geb_spec (Py.len (res ++ [emp])%list) max_results)
        as [Hge|Hlt'].
      * exists [emp], [score]. rewrite len_snoc in Hge.
        replace (Z.to_nat (max_results - Py.len res - 1)) with 0%nat by lia.
        repeat split; repeat constructor; assumption.
      * rewrite len_snoc in Hlt'.
        destruct (IH Hr' (res ++ [emp])%list (scs ++ [score])%list)
          as (added & added_scores & E & Hf & Hg);
          [rewrite len_snoc; lia|].
        exists (emp :: added), (score :: added_scores).
        rewrite <- !app_assoc in E. simpl in E. rewrite len_snoc in Hf, Hg.
        replace (max_results - (Py.len res + 1))
          with (max_results - Py.len res - 1) in Hf, Hg by lia.
        repeat split; auto.
    + apply (IH Hr' res scs Hlt).
Qed.

(** ** Order and repetition along a list of indices *)

Lemma chosen_sorted (semantic : bool) (employees : list Employee)
      (requirements : Req.t) (similarities : list Q) (max_results : Z) :
  StronglySorted (descending similarities)
                 (chosen semantic employees requirements similarities
                         max_results)
  /\ NoDup (chosen semantic employees requirements similarities max_results)
  /\ (forall idx,
         In idx (chosen semantic employees requirements similarities
                        max_results) ->
         In idx (top_indices similarities max_results)).
Proof.
  pose proof (ranking_sorted similarities) as Hs.
  pose proof (ranking_NoDup similarities) as Hn.
  assert (StronglySorted (descending similarities)
            (firstn (Z.to_nat max_results)
               (passing employees requirements
                  (top_indices similarities max_results)))) as H1
      by now apply StronglySorted_firstn, StronglySorted_filter,
                   StronglySorted_slice.
  assert (NoDup (firstn (Z.to_nat max_results)
                   (passing employees requirements
                      (top_indices similarities max_results)))) as H2
      by now apply NoDup_firstn, NoDup_filter, NoDup_slice.
  assert (forall idx,
             In idx (firstn (Z.to_nat max_results)
                       (passing employees requirements
                          (top_indices similarities max_results))) ->
             In idx (top_indices similarities max_results)) as H3.
  { intros idx H. apply in_firstn in H. now apply filter_In in H. }
  unfold chosen.
  destruct (firstn (Z.to_nat max_results)
              (passing employees requirements
                 (top_indices similarities max_results))) as [|i l].
  - destruct semantic.
    + repeat split; [constructor | constructor | intros idx []].
    + repeat split.
      * now apply StronglySorted_slice, StronglySorted_slice.
      * now apply NoDup_slice, NoDup_slice.
      * intros idx. apply slice_to_incl.
  - auto.
Qed.

Lemma scores_at (similarities : list Q) (indices : list nat) (scs : list Q) :
  Forall2 (fun idx s => nth_error similarities idx = Some s) indices scs ->
  scs = map (score_at similarities) indices.
Proof.
  induction 1 as [|idx s indices scs H _ IH]; simpl; [reflexivity|].
  rewrite <- IH. f_equal. unfold score_at.
  symmetry. now apply nth_error_nth.
Qed.

Lemma StronglySorted_map {A B} (R : B -> B -> Prop) (f : A -> B) (l : list A) :
  StronglySorted (fun a b => R (f a) (f b)) l -> StronglySorted R (map f l).
Proof.
  induction 1 as [|a l Hs IH Ha]; simpl; constructor; [exact IH|].
  now apply Forall_map.
Qed.

(** ** More on the extraction *)

Lemma lower_char_idem (c : ascii) :
  Py.lower_char (Py.lower_char c) = Py.lower_char c.
Proof. destruct c as [[] [] [] [] [] [] [] []]; reflexivity. Qed.

Lemma lower_idem (s : string) : Py.lower (Py.lower s) = Py.lower s.
Proof.
  induction s as [|c s IH]; simpl; [reflexivity|].
  now rewrite lower_char_idem, IH.
Qed.

Lemma no_digit_app (a b : string) :
  no_digit (a ++ b) = no_digit a && no_digit b.
Proof.
  induction a as [|c a IH]; simpl; [reflexivity|].
  now rewrite IH, andb_assoc.
Qed.

(** A pattern that matches leaves a suffix of the text to what follows. *)
Lemma run_suffix (r : regex) :
  forall s g k m,
    run r s g k = Some m ->
    exists a s' g', s = a ++ s' /\ k s' g' = Some m.
Proof.
  induction r as [|c|r1 IH1 r2 IH2|r1 IH1 r2 IH2|r1 IH1|p|p|i r1 IH1];
    simpl; intros s g k m H.
  - exists "", s, g. auto.
  - destruct s as [|c' s]; [discriminate|].
    destruct (Ascii.eqb c c'); [|discriminate].
    exists (String c' ""), s, g. auto.
  - apply IH1 in H as (a1 & s1 & g1 & -> & H).
    apply IH2 in H as (a2 & s2 & g2 & -> & H).
    exists (a1 ++ a2), s2, g2. now rewrite append_assoc.
  - destruct (run r1 s g k) eqn:E.
    + injection H as ->. now apply IH1 in E.
    + now apply IH2 in H.
  - destruct (run r1 s g k) eqn:E.
    + injection H as ->. now apply IH1 in E.
    + exists "", s, g. auto.
  - apply star_split in H as (a & s' & -> & _ & H). eauto.
  - destruct s as [|c s]; [discriminate|]. destruct (p c); [|discriminate].
    apply star_split in H as (a & s' & -> & _ & H).
    exists (String c a), s', g. auto.
  - apply IH1 in H as (a & s' & g' & -> & H). eauto.
Qed.

Lemma pattern_2_needs_digit (s : string) :
  no_digit s = true -> match_at exp_pattern_2 s = None.
Proof.
  intros Hd. destruct (match_at exp_pattern_2 s) as [m|] eqn:E; [|reflexivity].
  exfalso. unfold match_at, exp_pattern_2 in E. cbn [cat run] in E.
  apply run_suffix in E as (a1 & s1 & g1 & -> & E).
  apply star_split in E as (a2 & s2 & -> & _ & E).
  rewrite !no_digit_app in Hd.
  apply andb_true_iff in Hd as [_ Hd]. apply andb_true_iff in Hd as [_ Hd].
  destruct s2 as [|c s2]; [discriminate|].
  simpl in Hd. destruct (Py.is_digit c); discriminate.
Qed.

Lemma pattern_3_needs_digit (c : ascii) (s : string) :
  Py.is_digit c = false -> match_at exp_pattern_3 (String c s) = None.
Proof. intros H. unfold match_at. simpl. now rewrite H. Qed.

Lemma search_none (r : regex) (s : string) :
  (forall t, no_digit t = true -> match_at r t = None) ->
  no_digit s = true -> search r s = None.
Proof.
  intros Hr. induction s as [|c s IH]; intros Hd.
  - simpl. now rewrite Hr.
  - cbn [search]. rewrite (Hr _ Hd). apply IH.
    simpl in Hd. now apply andb_true_iff in Hd.
Qed.

Lemma leading_digit_needed (r : regex) :
  match_at r "" = None ->
  (forall c s, Py.is_digit c = false -> match_at r (String c s) = None) ->
  forall t, no_digit t = true -> match_at r t = None.
Proof.
  intros H0 H1 [|c t] Hd; [exact H0|].
  apply H1. simpl in Hd. apply andb_true_iff in Hd as [Hc _].
  now apply negb_true_iff.
Qed.

Lemma no_digit_no_experience (q : string) :
  no_digit q = true -> extract_experience exp_patterns q = Ok None.
Proof.
  intros Hd. unfold exp_patterns. cbn [extract_experience].
  rewrite (search_none exp_pattern_1 q
             (leading_digit_needed exp_pattern_1 eq_refl
                                   pattern_1_needs_digit) Hd).
  rewrite (search_none exp_pattern_2 q pattern_2_needs_digit Hd).
  rewrite (search_none exp_pattern_3 q
             (leading_digit_needed exp_pattern_3 eq_refl
                                   pattern_3_needs_digit) Hd).
  reflexivity.
Qed.

(** Without a digit [int] is not called: the extraction returns. *)
Lemma no_digit_accepts (query : string) :
  no_digit query = true ->
  exists r, _extract_requirements query = Ok r /\ Req.experience r = None.
Proof.
  intros Hd. unfold _extract_requirements.
  rewrite no_digit_no_experience by now rewrite no_digit_lower.
  simpl. eexists. split; reflexivity.
Qed.

(** X1. A query without a digit sets no threshold of experience, whatever it
    says about years. *)
Theorem no_digit_no_threshold (query : string) :
  no_digit query = true ->
  exists r, _extract_requirements query = Ok r /\ Req.experience r = None.
Proof. exact (no_digit_accepts query). Qed.

Lemma no_digit_no_threshold_witness :
  exists r, _extract_requirements "senior people with many years of experience"
            = Ok r
            /\ Req.experience r = None.
Proof.
  apply (no_digit_no_threshold "senior people with many years of experience").
  reflexivity.
Defined.

(** X2. Two queries that differ in the case of their letters only yield the
    same requirements; so does the query in lower case. *)
Theorem extraction_ignores_case (query query' : string) :
  Py.lower query = Py.lower query' ->
  _extract_requirements query = _extract_requirements query'
  /\ _extract_requirements (Py.lower query) = _extract_requirements query.
Proof.
  intros H. unfold _extract_requirements. rewrite lower_idem, H. auto.
Qed.

Lemma extraction_ignores_case_witness :
  _extract_requirements "PYTHON, 5+ Years Exp, Available"
  = _extract_requirements "python, 5+ years exp, available"
  /\ _extract_requirements (Py.lower "PYTHON, 5+ Years Exp, Available")
     = _extract_requirements "PYTHON, 5+ Years Exp, Available".
Proof.
  apply (extraction_ignores_case "PYTHON, 5+ Years Exp, Available"
                                 "python, 5+ years exp, available").
  reflexivity.
Defined.

(** A match keeps digits, and digits only, in its first group. *)
Lemma run_digits (r : regex) :
  first_group_is_digits r ->
  forall s g k m,
    run r s g k = Some m ->
    digits_in_first g ->
    exists s' g', k s' g' = Some m /\ digits_in_first g'.
Proof.
  induction r as [|c|r1 IH1 r2 IH2|r1 IH1 r2 IH2|r1 IH1|p|p|i r1 IH1];
    simpl; intros Hw s g k m H Hg.
  - eauto.
  - destruct s as [|c' s]; [discriminate|].
    destruct (Ascii.eqb c c'); [|discriminate]. eauto.
  - destruct Hw as [Hw1 Hw2].
    apply (IH1 Hw1) in H as (s1 & g1 & H & Hg1); [|exact Hg].
    apply (IH2 Hw2) in H as (s2 & g2 & H & Hg2); [|exact Hg1]. eauto.
  - destruct Hw as [Hw1 Hw2]. destruct (run r1 s g k) eqn:E.
    + injection H as ->. now apply (IH1 Hw1) in E.
    + now apply (IH2 Hw2) in H.
  - destruct (run r1 s g k) eqn:E.
    + injection H as ->. now apply (IH1 Hw) in E.
    + eauto.
  - apply star_some in H as [s' H]. eauto.
  - destruct s as [|c s]; [discriminate|]. destruct (p c); [|discriminate].
    apply star_some in H as [s' H]. eauto.
  - destruct (Nat.eqb i 1) eqn:Ei.
    + subst r1. cbn [run] in H.
      destruct s as [|c s]; [discriminate|].
      destruct (Py.is_digit c) eqn:Hc; [|discriminate].
      apply star_split in H as (a & s' & -> & Ha & H).
      exists s', ((i, consumed (String c (a ++ s')) s') :: g).
      split; [exact H|].
      intros t Ht. cbn [group] in Ht. rewrite Ei in Ht. injection Ht as <-.
      pose proof (consumed_app (String c a) s') as Hca.
      cbn [append] in Hca. rewrite Hca.
      unfold all_digits. simpl. now rewrite Hc, Ha.
    + apply (IH1 Hw) in H as (s' & g' & H & Hg'); [|exact Hg].
      exists s', ((i, consumed s s') :: g'). split; [exact H|].
      intros t Ht. cbn [group] in Ht. rewrite Ei in Ht. now apply Hg'.
Qed.

Lemma search_digits (r : regex) (s : string) (m : groups) :
  first_group_is_digits r -> search r s = Some m -> digits_in_first m.
Proof.
  intros Hw. assert (digits_in_first []) as H0 by (intros t; discriminate).
  induction s as [|c s IH]; simpl.
  - destruct (match_at r "") eqn:E; [|discriminate].
    intros H; injection H as ->.
    apply (run_digits r Hw) in E as (s' & g' & E & Hg); [|exact H0].
    now injection E as ->.
  - destruct (match_at r (String c s)) eqn:E; [|exact IH].
    intros H; injection H as ->.
    apply (run_digits r Hw) in E as (s' & g' & E & Hg); [|exact H0].
    now injection E as ->.
Qed.

Lemma digit_value_bounds (c : ascii) :
  Py.is_digit c = true -> 0 <= Py.digit_value c <= 9.
Proof.
  unfold Py.is_digit, Py.between, Py.digit_value. intros H.
  apply andb_true_iff in H as [H1 H2].
  apply N.leb_le in H1. apply N.leb_le in H2.
  lia.
Qed.

Lemma int_of_digits_nonneg (s : string) (acc : Z) :
  all_digits s = true -> 0 <= acc -> 0 <= Py.int_of_digits_from acc s.
Proof.
  revert acc. induction s as [|c s IH]; intros acc Hd Ha; [exact Ha|].
  unfold all_digits in Hd. simpl in Hd. apply andb_true_iff in Hd as [Hc Hd].
  cbn [Py.int_of_digits_from]. apply IH; [exact Hd|].
  pose proof (digit_value_bounds c Hc). lia.
Qed.

Lemma extract_experience_nonneg (q : string) (n : Z) :
  extract_experience exp_patterns q = Ok (Some n) -> 0 <= n.
Proof.
  assert (forall ps, Forall first_group_is_digits ps ->
                     extract_experience ps q = Ok (Some n) -> 0 <= n) as H.
  { induction 1 as [|p ps Hp _ IH]; simpl; [discriminate|].
    destruct (search p q) as [m|] eqn:E; [|exact IH].
    pose proof (search_digits p q m Hp E) as Hg.
    unfold int_group_1. destruct (group 1 m) as [t|] eqn:Et; [|discriminate].
    destruct (Py.int t) as [n'|] eqn:Ei; simpl; [|discriminate].
    intros H; injection H as <-. apply int_returns in Ei as ->.
    apply int_of_digits_nonneg; [now apply Hg | lia]. }
  apply H. repeat constructor; simpl; auto.
Qed.

(** X3. The threshold of experience a query sets is never negative: a sign in
    front of the number is not read. *)
Theorem threshold_never_negative (query : string) (r : Req.t) (n : Z) :
  _extract_requirements query = Ok r ->
  Req.experience r = Some n ->
  0 <= n.
Proof.
  intros Hr Hn. pose proof (extract_experience_of _ _ Hr) as He.
  rewrite Hn in He. now apply extract_experience_nonneg in He.
Qed.

Lemma threshold_never_negative_witness : 0 <= 3.
Proof.
  apply (threshold_never_negative
           "-3 years experience"
           {| Req.skills := []; Req.experience := Some 3; Req.projects := [];
              Req.availability := None; Req.department := None |} 3).
  - reflexivity.
  - reflexivity.
Defined.

(** ** A number too long for [int] *)

(** A starred class takes all it can when what follows then matches. *)
Lemma star_greedy {R} (p : ascii -> bool) (a rest : string)
      (k : string -> option R) (m : R) :
  all_chars p a = true ->
  star p rest k = Some m ->
  star p (a ++ rest) k = Some m.
Proof.
  induction a as [|c a IH]; simpl; intros Ha H; [exact H|].
  apply andb_true_iff in Ha as [Hc Ha]. now rewrite Hc, (IH Ha H).
Qed.

Lemma lower_char_digit (c : ascii) :
  Py.is_digit c = true -> Py.lower_char c = c.
Proof.
  destruct c as [[] [] [] [] [] [] [] []]; intros H;
    first [reflexivity | vm_compute in H; discriminate H].
Qed.

Lemma lower_digits (s : string) : all_digits s = true -> Py.lower s = s.
Proof.
  unfold all_digits. induction s as [|c s IH]; simpl; intros H; [reflexivity|].
  apply andb_true_iff in H as [Hc H].
  now rewrite (lower_char_digit c Hc), (IH H).
Qed.

Lemma pattern_1_on_number (digits post : string) :
  all_digits digits = true -> digits <> "" ->
  match_at exp_pattern_1 (digits ++ " years experience" ++ post)
  = Some [(2%nat, "experience"); (1%nat, digits)].
Proof.
  intros Hd Hne. destruct digits as [|c d]; [congruence|].
  unfold all_digits in Hd. simpl in Hd. apply andb_true_iff in Hd as [Hc Hd].
  unfold match_at, exp_pattern_1. cbn [cat run word append]. rewrite Hc.
  apply star_greedy; [exact Hd|].
  simpl.
  pose proof (consumed_app "experience" post) as H2.
  pose proof (consumed_app (String c d) (" years experience" ++ post)) as H1.
  cbn [append] in H1, H2. now rewrite H1, H2.
Qed.

(** The first number in front of [years experience], with more digits than
    [int] converts: the extraction raises. *)
Lemma long_number_raises (query pre digits post : string) :
  query = pre ++ digits ++ " years experience" ++ post ->
  no_digit pre = true ->
  all_digits digits = true ->
  Py.max_str_digits < Z.of_nat (String.length digits) ->
  _extract_requirements query = Raise ValueError.
Proof.
  intros -> Hp Hd Hl.
  assert (digits <> "") as Hne by (intros ->; simpl in Hl; discriminate).
  unfold _extract_requirements. rewrite !lower_app, (lower_digits _ Hd).
  change (Py.lower " years experience") with " years experience".
  unfold exp_patterns. cbn [extract_experience].
  rewrite (pattern_1_skips (Py.lower pre)) by
      (first [now rewrite no_digit_lower
             | destruct digits; [congruence | discriminate]]).
  rewrite (search_here _ _ _ (pattern_1_on_number digits (Py.lower post)
                                                  Hd Hne)).
  unfold int_group_1. cbn [group Nat.eqb]. now rewrite (int_refuses _ Hl).
Qed.

(** X4. An employee who passes the filter still passes it with more years of
    experience. *)
Theorem more_experience_keeps_match
        (emp : Employee) (requirements : Req.t) (years : Z) :
  _matches_requirements emp requirements = true ->
  experience_years emp <= years ->
  _matches_requirements (set_experience_years emp years) requirements = true.
Proof.
  unfold _matches_requirements. intros H Hy.
  destruct (Req.experience requirements) as [n|]; cbn [truthy_int] in *;
    [|exact H].
  destruct (negb (n =? 0)); cbn [andb] in *; [|exact H].
  cbn [experience_years set_experience_years].
  destruct (Z.ltb_spec (experience_years emp) n); [discriminate|].
  destruct (Z.ltb_spec years n); [lia | exact H].
Qed.

Lemma more_experience_keeps_match_witness :
  _matches_requirements (set_experience_years Sample.A 9)
    {| Req.skills := ["python"]; Req.experience := Some 3; Req.projects := [];
       Req.availability := Some "available"; Req.department := None |} = true.
Proof.
  apply (more_experience_keeps_match Sample.A).
  - reflexivity.
  - simpl. lia.
Defined.

(** ** Requirements that ask for nothing *)

Lemma asks_nothing_passes (emp : Employee) (requirements : Req.t) :
  asks_nothing requirements -> _matches_requirements emp requirements = true.
Proof.
  intros (He & Ha & Hs). unfold _matches_requirements.
  now rewrite He, Ha, Hs.
Qed.

Lemma passing_all (employees : list Employee) (similarities : list Q)
      (requirements : Req.t) (indices : list nat) :
  asks_nothing requirements ->
  in_range employees similarities indices ->
  passing employees requirements indices = indices.
Proof.
  intros Hn. induction 1 as [|idx rest [He _] _ IH]; [reflexivity|].
  destruct (getitem_ok employees idx He) as (emp & _ & Ne).
  rewrite (passing_cons _ _ _ _ _ Ne), (asks_nothing_passes emp _ Hn).
  now rewrite IH.
Qed.

Lemma plain_query_asks_nothing (query : string) :
  no_digit query = true ->
  (forall skill, In skill common_skills -> ~ occurs skill (Py.lower query)) ->
  exists r, _extract_requirements query = Ok r /\ asks_nothing r.
Proof.
  intros Hd Hs. destruct (no_digit_accepts query Hd) as (r & Hr & He).
  exists r. split; [exact Hr|]. split; [exact He|]. split.
  - rewrite (extract_availability _ _ Hr).
    destruct (Py.contains "available" (Py.lower query)) eqn:E; [|reflexivity].
    exfalso. apply contains_occurs in E. apply (Hs "ai"); [simpl; tauto|].
    apply (occurs_trans _ "available"); [|exact E].
    exists "av", "lable". reflexivity.
  - rewrite (extract_skills_of _ _ Hr). unfold extract_skills.
    destruct (filter (fun skill => Py.contains skill (Py.lower query))
                     common_skills) as [|x l] eqn:E; [reflexivity|].
    exfalso. assert (In x (x :: l)) as Hx by now left.
    rewrite <- E in Hx. apply filter_In in Hx as [Hin Hc].
    apply contains_occurs in Hc. now apply (Hs x).
Qed.

(** ** Scores and their mean *)

Lemma filter_loop_scores (employees : list Employee) (similarities : list Q)
      (requirements : Req.t) (max_results : Z) (indices : list nat) :
  forall res scs res' scs',
    filter_loop employees similarities requirements max_results indices
                res scs = Ok (res', scs') ->
    Forall (fun s => In s similarities) scs ->
    Forall (fun s => In s similarities) scs'.
Proof.
  induction indices as [|idx rest IH]; intros res scs res' scs' H Hs.
  - simpl in H. now injection H as <- <-.
  - cbn [filter_loop] in H. unfold getitem in H.
    destruct (nth_error employees idx) as [emp|]; [|discriminate].
    destruct (nth_error similarities idx) as [score|] eqn:Ns; [|discriminate].
    cbn [bind] in H.
    assert (Forall (fun s => In s similarities) (scs ++ [score])%list) as Hs'.
    { apply Forall_app. split; [exact Hs|]. repeat constructor.
      eapply nth_error_In, Ns. }
    destruct (_matches_requirements emp requirements).
    + destruct (Py.len (res ++ [emp])%list >=? max_results).
      * now injection H as <- <-.
      * eapply IH; eassumption.
    + eapply IH; eassumption.
Qed.

Lemma take_loop_scores (employees : list Employee) (similarities : list Q)
      (indices : list nat) :
  forall res scs res' scs',
    take_loop employees similarities indices res scs = Ok (res', scs') ->
    Forall (fun s => In s similarities) scs ->
    Forall (fun s => In s similarities) scs'.
Proof.
  induction indices as [|idx rest IH]; intros res scs res' scs' H Hs.
  - simpl in H. now injection H as <- <-.
  - cbn [take_loop] in H. unfold getitem in H.
    destruct (nth_error employees idx) as [emp|]; [|discriminate].
    destruct (nth_error similarities idx) as [score|] eqn:Ns; [|discriminate].
    cbn [bind] in H. eapply IH; [eassumption|].
    apply Forall_app. split; [exact Hs|]. repeat constructor.
    eapply nth_error_In, Ns.
Qed.

Lemma total_bounds (scores : list Q) :
  Forall (fun s => (0 <= s <= 1)%Q) scores ->
  (0 <= fold_right Qplus 0 scores
   <= inject_Z (Z.of_nat (List.length scores)))%Q.
Proof.
  induction 1 as [|x l [H0 H1] _ [IH0 IH1]].
  - simpl. split; apply Qle_refl.
  - cbn [fold_right List.length]. rewrite Nat2Z.inj_succ, <- Z.add_1_l.
    rewrite inject_Z_plus. split.
    + change 0%Q with (0 + 0)%Q. now apply Qplus_le_compat.
    + now apply Qplus_le_compat.
Qed.

Lemma mean_bounds (scores : list Q) :
  Forall (fun s => (0 <= s <= 1)%Q) scores -> (0 <= mean scores <= 1)%Q.
Proof.
  intros H. destruct scores as [|x l]; [split; discriminate|].
  destruct (total_bounds _ H) as [H0 H1]. unfold mean.
  assert (0 < inject_Z (Z.of_nat (List.length (x :: l))))%Q as Hpos.
  { change 0%Q with (inject_Z 0). rewrite <- Zlt_Qlt. simpl. lia. }
  split.
  - apply Qle_shift_div_l; [exact Hpos|]. now rewrite Qmult_0_l.
  - apply Qle_shift_div_r; [exact Hpos|]. now rewrite Qmult_1_l.
Qed.

(** ** What a search returns *)

Section EngineMore.

Variable vec : Type.
Variable st_encode : string -> vec.
Variable analyze : string -> list string.
Variable tfidf_row : list string -> string -> vec.
Variable cosine : vec -> vec -> Q.

Local Abbreviation init := (RAGSystem_init st_encode analyze tfidf_row).
Local Abbreviation search := (search_employees st_encode tfidf_row cosine).
Local Abbreviation answer := (generate_response st_encode tfidf_row cosine).
Local Abbreviation similarities_of :=
  (query_similarities st_encode tfidf_row cosine).

(** The employees and scores of a search are those at the chosen indices. *)
Lemma search_shape (installed : bool) (emps : list Employee)
      (sys : RAGSystem vec) (query : string) (max_results : Z)
      (req : Req.t) :
  init installed emps = Ok sys ->
  emps <> [] ->
  1 <= max_results ->
  _extract_requirements query = Ok req ->
  exists sims res scs,
    similarities_of sys query = Ok sims
    /\ List.length sims = List.length emps
    /\ search sys query max_results = Ok (res, scs)
    /\ Forall2 (fun idx e => nth_error emps idx = Some e)
               (chosen installed emps req sims max_results) res
    /\ Forall2 (fun idx s => nth_error sims idx = Some s)
               (chosen installed emps req sims max_results) scs.
Proof.
  intros Hi Hne Hmax Hr.
  destruct (init_spec _ _ _ _ _ _ _ Hi) as (He & Hl & Hu & Hv).
  destruct (similarities_ok _ _ _ _ cosine _ _ _ query Hi Hne) as [sims Hs].
  pose proof (similarities_length _ _ _ _ _ _ _ _ _ _ Hi Hs) as Hlen.
  destruct (filter_loop_exact emps sims req max_results _
              (top_in_range emps sims max_results Hlen) [] [])
    as (added & added_scores & E & Hf & Hg); [unfold Py.len; simpl; lia|].
  simpl in E. unfold Py.len in Hf, Hg. simpl in Hf, Hg.
  rewrite Z.sub_0_r in Hf, Hg.
  exists sims. unfold chosen.
  destruct installed.
  - exists added, added_scores.
    rewrite (search_semantic _ _ _ _ sys query max_results sims req Hu Hs Hr),
      He, E.
    repeat split; auto;
      destruct (firstn (Z.to_nat max_results)
                  (passing emps req (top_indices sims max_results)));
      assumption.
  - rewrite (search_lexical _ _ _ _ sys query max_results sims req Hu Hs Hr),
      He, E.
    cbn [bind].
    destruct (firstn (Z.to_nat max_results)
                (passing emps req (top_indices sims max_results)))
      as [|i l] eqn:Ef.
    + destruct added; [|inversion Hf].
      destruct added_scores; [|inversion Hg].
      destruct (take_loop_spec emps sims _
                  (fallback_in_range emps sims max_results Hlen) [] [])
        as (taken & taken_scores & E' & Hf2 & Hg2).
      rewrite E'. simpl. exists taken, taken_scores. repeat split; auto.
    + destruct added as [|e res']; [inversion Hf|].
      exists (e :: res'), added_scores. repeat split; auto.
Qed.

Lemma examined_is_a_prefix (sims : list Q) (max_results : Z) :
  1 <= max_results ->
  top_indices sims max_results
  = firstn (Z.to_nat (max_results * 2)) (ranking sims).
Proof.
  intros H. unfold top_indices, Py.slice_to.
  destruct (Z.leb_spec 0 (max_results * 2)); [reflexivity | lia].
Qed.

Lemma fallback_is_a_prefix (sims : list Q) (max_results : Z) :
  0 <= max_results ->
  Py.slice_to max_results (top_indices sims max_results)
  = firstn (Z.to_nat max_results) (ranking sims).
Proof. intros H. unfold top_indices. now apply slice_slice. Qed.

(** X6. For a [max_results] of at least 1 and a query without a run of more
    than 4300 digits, the search examines the first [2 * max_results] of
    the ranking and returns, with their scores, the first [max_results] of
    them that pass the filter, in the order of the ranking; when none
    passes, the semantic strategy returns nothing and the lexical one the
    first [max_results] of the ranking. *)
Theorem search_returns_first_passing
        (installed : bool) (emps : list Employee) (sys : RAGSystem vec)
        (query : string) (max_results : Z) :
  init installed emps = Ok sys ->
  emps <> [] ->
  1 <= max_results ->
  digits_fit query ->
  exists sims req res scs,
    similarities_of sys query = Ok sims
    /\ _extract_requirements query = Ok req
    /\ search sys query max_results = Ok (res, scs)
    /\ let examined := firstn (Z.to_nat (max_results * 2)) (ranking sims) in
       let found := firstn (Z.to_nat max_results)
                           (passing emps req examined) in
       let indices :=
         match found with
         | [] => if installed then []
                 else firstn (Z.to_nat max_results) (ranking sims)
         | _ => found
         end in
       Forall2 (fun idx e => nth_error emps idx = Some e) indices res
       /\ Forall2 (fun idx s => nth_error sims idx = Some s) indices scs.
Proof.
  intros Hi Hne Hmax Hd.
  destruct (extraction_accepts query Hd) as [req Hr].
  destruct (search_shape _ _ _ query max_results req Hi Hne Hmax Hr)
    as (sims & res & scs & Hs & _ & E & Hf & Hg).
  exists sims, req, res, scs.
  split; [exact Hs|]. split; [exact Hr|]. split; [exact E|]. cbv zeta.
  unfold chosen in Hf, Hg.
  rewrite (fallback_is_a_prefix sims max_results) in Hf, Hg by lia.
  rewrite (examined_is_a_prefix sims max_results Hmax) in Hf, Hg.
  destruct (firstn (Z.to_nat max_results)
              (passing emps req
                 (firstn (Z.to_nat (max_results * 2)) (ranking sims))));
    split; assumption.
Qed.

(** X7. For a query without a run of more than 4300 digits, the scores of a
    search never increase from one match to the next, and there is one
    score for each match. *)
Theorem scores_never_increase
        (installed : bool) (emps : list Employee) (sys : RAGSystem vec)
        (query : string) (max_results : Z) :
  init installed emps = Ok sys ->
  emps <> [] ->
  1 <= max_results ->
  digits_fit query ->
  exists res scs,
    search sys query max_results = Ok (res, scs)
    /\ List.length scs = List.length res
    /\ StronglySorted (fun a b => (b <= a)%Q) scs.
Proof.
  intros Hi Hne Hmax Hd.
  destruct (extraction_accepts query Hd) as [req Hr].
  destruct (search_shape _ _ _ query max_results req Hi Hne Hmax Hr)
    as (sims & res & scs & Hs & _ & E & Hf & Hg).
  exists res, scs. split; [exact E|]. split.
  - apply Forall2_length in Hf, Hg. congruence.
  - rewrite (scores_at _ _ _ Hg). apply StronglySorted_map.
    apply (chosen_sorted installed emps req sims max_results).
Qed.

(** X8. For a query without a run of more than 4300 digits, the matches of a
    search stand at positions of the list of employees, no position is
    taken twice, and so there are never more matches than employees. *)
Theorem matches_at_distinct_positions
        (installed : bool) (emps : list Employee) (sys : RAGSystem vec)
        (query : string) (max_results : Z) :
  init installed emps = Ok sys ->
  emps <> [] ->
  1 <= max_results ->
  digits_fit query ->
  exists positions res scs,
    search sys query max_results = Ok (res, scs)
    /\ Forall2 (fun idx e => nth_error emps idx = Some e) positions res
    /\ NoDup positions
    /\ Forall (fun e => In e emps) res
    /\ (List.length res <= List.length emps)%nat.
Proof.
  intros Hi Hne Hmax Hd.
  destruct (extraction_accepts query Hd) as [req Hr].
  destruct (search_shape _ _ _ query max_results req Hi Hne Hmax Hr)
    as (sims & res & scs & Hs & Hlen & E & Hf & Hg).
  destruct (chosen_sorted installed emps req sims max_results)
    as (_ & Hnd & Hin).
  exists (chosen installed emps req sims max_results), res, scs.
  repeat split; try assumption.
  - clear - Hf. induction Hf as [|idx e l l' H _ IH]; constructor;
      [eapply nth_error_In, H | exact IH].
  - rewrite <- (Forall2_length Hf), <- Hlen, <- (length_seq (List.length sims) 0).
    apply NoDup_incl_length; [exact Hnd|].
    intros idx H. apply Hin, slice_to_incl in H.
    now apply (Permutation_in _ (ranking_perm sims)).
Qed.

(** X9. With the lexical strategy, a [max_results] of at least 1 and a query
    without a run of more than 4300 digits, a search has a match, so the
    apology for no match is not the response. *)
Theorem lexical_search_is_never_empty
        (emps : list Employee) (sys : RAGSystem vec)
        (query : string) (max_results : Z) :
  init false emps = Ok sys ->
  1 <= max_results ->
  digits_fit query ->
  exists r res scs,
    search sys query max_results = Ok (res, scs)
    /\ res <> []
    /\ answer sys query max_results = Ok r
    /\ matched_employees r = res.
Proof.
  intros Hi Hmax Hd.
  destruct (init_spec _ _ _ _ _ _ _ Hi) as (_ & _ & _ & Hv).
  destruct (Hv eq_refl) as [Hne _].
  destruct (extraction_accepts query Hd) as [req Hr].
  destruct (search_shape _ _ _ query max_results req Hi Hne Hmax Hr)
    as (sims & res & scs & Hs & Hlen & E & Hf & Hg).
  assert (res <> []) as Hres.
  { intros ->. inversion Hf as [Hc|]. unfold chosen in Hc.
    destruct (firstn (Z.to_nat max_results)
                (passing emps req (top_indices sims max_results)));
      [|discriminate].
    rewrite (fallback_is_a_prefix sims max_results) in Hc by lia.
    assert (List.length (firstn (Z.to_nat max_results) (ranking sims)) = 0%nat)
      as Hz by now rewrite <- Hc.
    rewrite length_firstn, (Permutation_length (ranking_perm sims)),
      length_seq, Hlen in Hz.
    destruct emps; [congruence | simpl in Hz; lia]. }
  unfold generate_response. rewrite E. cbn [bind].
  destruct res as [|e res]; [congruence|].
  eexists. exists (e :: res), scs. repeat split; auto.
Qed.

(** X10. A query without digits and without any term of the vocabulary of
    skills gets the ranking itself: the employees and scores at its first
    [max_results] places, with either strategy. *)
Theorem plain_query_gets_the_ranking
        (installed : bool) (emps : list Employee) (sys : RAGSystem vec)
        (query : string) (max_results : Z) :
  init installed emps = Ok sys ->
  emps <> [] ->
  1 <= max_results ->
  no_digit query = true ->
  (forall skill, In skill common_skills -> ~ occurs skill (Py.lower query)) ->
  exists sims res scs,
    similarities_of sys query = Ok sims
    /\ search sys query max_results = Ok (res, scs)
    /\ Forall2 (fun idx e => nth_error emps idx = Some e)
               (firstn (Z.to_nat max_results) (ranking sims)) res
    /\ Forall2 (fun idx s => nth_error sims idx = Some s)
               (firstn (Z.to_nat max_results) (ranking sims)) scs.
Proof.
  intros Hi Hne Hmax Hd Hsk.
  destruct (plain_query_asks_nothing query Hd Hsk) as (req & Hr & Hn).
  destruct (search_shape _ _ _ query max_results req Hi Hne Hmax Hr)
    as (sims & res & scs & Hs & Hlen & E & Hf & Hg).
  assert (chosen installed emps req sims max_results
          = firstn (Z.to_nat max_results) (ranking sims)) as Hc.
  { unfold chosen.
    rewrite (passing_all emps sims req _ Hn
               (top_in_range emps sims max_results Hlen)).
    rewrite (fallback_is_a_prefix sims max_results) by lia.
    rewrite (examined_is_a_prefix sims max_results Hmax), firstn_firstn.
    replace (Nat.min (Z.to_nat max_results) (Z.to_nat (max_results * 2)))
      with (Z.to_nat max_results) by lia.
    destruct (firstn (Z.to_nat max_results) (ranking sims));
      [destruct installed|]; reflexivity. }
  rewrite Hc in Hf, Hg. exists sims, res, scs. auto.
Qed.

(** X11. When the cosine of the library lies between 0 and 1, so does the
    confidence of every response. *)
Theorem confidence_within_unit
        (installed : bool) (emps : list Employee) (sys : RAGSystem vec)
        (query : string) (max_results : Z) (r : ChatResponse) :
  (forall x y, (0 <= cosine x y <= 1)%Q) ->
  init installed emps = Ok sys ->
  answer sys query max_results = Ok r ->
  (0 <= confidence_score r <= 1)%Q.
Proof.
  intros Hcos Hi Ha. unfold generate_response in Ha.
  destruct (search sys query max_results) as [[res scs]|] eqn:E;
    [|discriminate].
  cbn [bind] in Ha.
  assert (Forall (fun s => (0 <= s <= 1)%Q) scs) as Hb.
  { assert (exists sims, Forall (fun s => In s sims) scs
                         /\ Forall (fun s => (0 <= s <= 1)%Q) sims)
      as (sims & Hin & Hall).
    { unfold search_employees, _search_with_sentence_transformers,
        _search_with_tfidf in E.
      destruct (use_sentence_transformers sys).
      - unfold cosine_similarity in E.
        destruct (employee_embeddings sys) as [|y Y]; [discriminate|].
        cbn [bind] in E.
        destruct (_extract_requirements query) as [req|]; [|discriminate].
        cbn [bind] in E. eexists. split.
        + eapply filter_loop_scores; [exact E | constructor].
        + apply Forall_map, Forall_forall. intros; apply Hcos.
      - destruct (transform tfidf_row (vectorizer sys) (Py.lower query))
          as [qv|]; [|discriminate].
        cbn [bind] in E. unfold cosine_similarity in E.
        destruct (employee_embeddings sys) as [|y Y]; [discriminate|].
        cbn [bind] in E.
        destruct (_extract_requirements query) as [req|]; [|discriminate].
        cbn [bind] in E.
        destruct (filter_loop (employees sys) (map (cosine qv) (y :: Y)) req
                    max_results
                    (top_indices (map (cosine qv) (y :: Y)) max_results)
                    [] []) as [[fr fs]|] eqn:El; [|discriminate].
        cbn [bind] in E. eexists. split.
        + pose proof (filter_loop_scores _ _ _ _ _ _ _ _ _ El
                        (Forall_nil _)) as Hfs.
          destruct fr.
          * eapply take_loop_scores; [exact E | exact Hfs].
          * now injection E as <- <-.
        + apply Forall_map, Forall_forall. intros; apply Hcos. }
    eapply Forall_impl; [|exact Hin]. intros s Hs.
    rewrite Forall_forall in Hall. now apply Hall. }
  destruct res as [|e res]; injection Ha as <-; cbn [confidence_score].
  - split; discriminate.
  - destruct scs as [|x scs]; [split; discriminate|].
    pose proof (mean_bounds _ Hb) as Hm. unfold mean in Hm.
    unfold Py.len.
    assert (sum (x :: scs) / inject_Z (Z.of_nat (List.length (x :: scs)))
            == fold_right Qplus 0 (x :: scs)
               / inject_Z (Z.of_nat (List.length (x :: scs))))%Q as Heq
        by (apply Qdiv_comp; [apply sum_total | reflexivity]).
    now rewrite Heq.
Qed.

(** X12. With the semantic strategy and a query without a run of more than
    4300 digits, a [max_results] of 0 or less yields at most one match: the
    loop stops at the first candidate that passes. *)
Theorem semantic_non_positive_at_most_one
        (emps : list Employee) (sys : RAGSystem vec)
        (query : string) (max_results : Z) :
  init true emps = Ok sys ->
  emps <> [] ->
  max_results <= 0 ->
  digits_fit query ->
  exists res scs,
    search sys query max_results = Ok (res, scs)
    /\ (List.length res <= 1)%nat
    /\ Forall (fun e => In e emps) res.
Proof.
  intros Hi Hne Hmax Hd.
  destruct (init_spec _ _ _ _ _ _ _ Hi) as (He & Hl & Hu & Hv).
  destruct (similarities_ok _ _ _ _ cosine _ _ _ query Hi Hne) as [sims Hs].
  pose proof (similarities_length _ _ _ _ _ _ _ _ _ _ Hi Hs) as Hlen.
  destruct (extraction_accepts query Hd) as [req Hr].
  destruct (filter_loop_spec emps sims req max_results _
              (top_in_range emps sims max_results Hlen) [] [])
    as (added & added_scores & E & _ & Hf & _ & Hone & _).
  simpl in E. exists added, added_scores.
  rewrite (search_semantic _ _ _ _ sys query max_results sims req Hu Hs Hr),
    He, E.
  repeat split.
  - apply Hone. unfold Py.len. simpl. lia.
  - eapply Forall_impl; [|exact Hf]. now intros e [H _].
Qed.


End EngineMore.

(** * Properties of the HTTP interface *)

(** ** Counting into a dictionary *)

Lemma bump_keys (key : string) (d : list (string * Z)) (k : string) :
  In k (map fst (Api.bump key d)) <-> k = key \/ In k (map fst d).
Proof.
  induction d as [|[k0 n0] d IH]; simpl.
  - split; [intros [<-|[]]; auto | intros [->|[]]; auto].
  - destruct (String.eqb_spec k0 key) as [->|Hne]; simpl.
    + intuition auto.
    + rewrite IH. intuition auto.
Qed.

Lemma bump_NoDup (key : string) (d : list (string * Z)) :
  NoDup (map fst d) -> NoDup (map fst (Api.bump key d)).
Proof.
  induction d as [|[k0 n0] d IH]; simpl; intros H.
  - repeat constructor. intros [].
  - inversion H as [|? ? Hk Hd]; subst.
    destruct (String.eqb_spec k0 key) as [->|Hne]; simpl.
    + now constructor.
    + constructor; [|now apply IH].
      rewrite bump_keys. intros [->|Hin]; [congruence | contradiction].
Qed.

Lemma bump_entry (key : string) (d : list (string * Z)) (k : string) (n : Z) :
  NoDup (map fst d) ->
  In (k, n) (Api.bump key d) ->
  (k <> key /\ In (k, n) d)
  \/ (k = key /\ ((exists n0, In (key, n0) d /\ n = n0 + 1)
                  \/ (~ In key (map fst d) /\ n = 1))).
Proof.
  induction d as [|[k0 n0] d IH]; simpl; intros Hnd H.
  - destruct H as [H|[]]. injection H as <- <-. right. split; [reflexivity|].
    right. split; [intros [] | reflexivity].
  - inversion Hnd as [|? ? Hk Hd]; subst.
    destruct (String.eqb_spec k0 key) as [->|Hne]; simpl in H.
    + destruct H as [H|H].
      * injection H as <- <-. right. split; [reflexivity|]. left.
        exists n0. auto.
      * left. split; [|auto]. intros ->. apply Hk.
        now apply (in_map fst) in H.
    + destruct H as [H|H].
      * injection H as <- <-. left. auto.
      * destruct (IH Hd H) as [[Hk' Hin]|[-> [(n1 & Hin & ->)|[Hnk ->]]]].
        -- left. auto.
        -- right. split; [reflexivity|]. left. exists n1. auto.
        -- right. split; [reflexivity|]. right. split; [|reflexivity].
           intros [E|Hin]; [congruence | contradiction].
Qed.

Lemma counts_bump (seen : list string) (d : list (string * Z)) (key : string) :
  counts seen d -> counts (seen ++ [key])%list (Api.bump key d).
Proof.
  intros (Hnd & Hk & Hc). split; [now apply bump_NoDup|]. split.
  - intros k. rewrite bump_keys, in_app_iff, Hk. simpl. intuition.
  - intros k n H. rewrite count_occ_app. simpl.
    destruct (bump_entry key d k n Hnd H)
      as [[Hne Hin]|[-> [(n0 & Hin & ->)|[Hnk ->]]]].
    + destruct (string_dec key k); [congruence|].
      rewrite (Hc _ _ Hin). lia.
    + destruct (string_dec key key); [|congruence].
      rewrite (Hc _ _ Hin). lia.
    + destruct (string_dec key key); [|congruence].
      rewrite Hk in Hnk.
      rewrite (proj1 (count_occ_not_In string_dec seen key) Hnk). lia.
Qed.

Lemma count_all_counts (keys : list string) :
  counts keys (Api.count_all keys).
Proof.
  unfold Api.count_all.
  assert (forall seen d, counts seen d ->
                         counts (seen ++ keys)%list
                                (fold_left (fun d key => Api.bump key d) keys d))
    as H.
  { induction keys as [|key keys IH]; intros seen d Hc; simpl.
    - now rewrite app_nil_r.
    - replace (seen ++ key :: keys)%list with ((seen ++ [key]) ++ keys)%list
        by now rewrite <- app_assoc.
      apply IH, counts_bump, Hc. }
  apply (H [] []). split; [constructor|]. split.
  - intros k. simpl. tauto.
  - intros k n [].
Qed.

(** ** Sorting by count *)

Lemma insert_by_count_perm (x : string * Z) (l : list (string * Z)) :
  Permutation (Api.insert_by_count x l) (x :: l).
Proof.
  induction l as [|y l IH]; simpl; [reflexivity|].
  destruct (snd y >? snd x); [|reflexivity].
  rewrite IH. apply perm_swap.
Qed.

Lemma insert_by_count_sorted (x : string * Z) (l : list (string * Z)) :
  StronglySorted (fun a b => snd b <= snd a) l ->
  StronglySorted (fun a b => snd b <= snd a) (Api.insert_by_count x l).
Proof.
  induction 1 as [|y l Hs IH Hy]; simpl; [repeat constructor|].
  destruct (Z.gtb_spec (snd y) (snd x)) as [Hgt|Hle].
  - constructor; [exact IH|].
    apply (Permutation_Forall (Permutation_sym (insert_by_count_perm x l))).
    constructor; [lia | exact Hy].
  - constructor; [now constructor|].
    constructor; [exact Hle|].
    eapply Forall_impl; [|exact Hy]. simpl. intros a Ha. lia.
Qed.

Lemma sorted_by_count_spec (items : list (string * Z)) :
  Permutation (Api.sorted_by_count items) items
  /\ StronglySorted (fun a b => snd b <= snd a) (Api.sorted_by_count items).
Proof.
  induction items as [|x items [IHp IHs]]; simpl.
  - split; constructor.
  - split.
    + rewrite insert_by_count_perm. now constructor.
    + now apply insert_by_count_sorted.
Qed.

(** ** The routes *)

Lemma find_first {A} (f : A -> bool) (l : list A) (x : A) :
  find f l = Some x ->
  exists before after,
    l = (before ++ x :: after)%list
    /\ f x = true
    /\ Forall (fun y => f y = false) before.
Proof.
  induction l as [|a l IH]; simpl; [discriminate|].
  destruct (f a) eqn:E.
  - intros H; injection H as <-. exists [], l. auto.
  - intros H. destruct (IH H) as (before & after & -> & Hx & Hb).
    exists (a :: before), after. auto.
Qed.

Lemma kept_sound (skills_list : list string)
      (min_experience max_experience : option Z)
      (availability : option AvailabilityStatus) (department : option string)
      (emp : Employee) :
  Api.kept skills_list min_experience max_experience availability department
           emp = true ->
  (skills_list = []
   \/ exists skill, In skill skills_list
                    /\ In (Py.lower skill) (map Py.lower (skills emp)))
  /\ (forall n, min_experience = Some n -> n <> 0 -> n <= experience_years emp)
  /\ (forall n, max_experience = Some n -> n <> 0 -> experience_years emp <= n)
  /\ (forall a, availability = Some a -> Api.Employee_availability emp = a)
  /\ (forall d ed, department = Some d -> d <> "" ->
                   Api.Employee_department emp = Some ed -> ed <> "" ->
                   occurs (Py.lower d) (Py.lower ed)).
Proof.
  unfold Api.kept. intros H.
  destruct (match skills_list with
            | [] => false
            | _ :: _ =>
                negb (existsb (fun skill =>
                                 Py.mem (Py.lower skill)
                                        (map Py.lower (skills emp)))
                              skills_list)
            end) eqn:Hsk; [discriminate|].
  destruct (truthy_int min_experience
            && match min_experience with
               | Some n => experience_years emp <? n
               | None => false
               end) eqn:Hmin; [discriminate|].
  destruct (truthy_int max_experience
            && match max_experience with
               | Some n => experience_years emp >? n
               | None => false
               end) eqn:Hmax; [discriminate|].
  destruct (match availability with
            | Some a => Api.truthy (value a)
                        && negb (Api.status_eqb
                                   (Api.Employee_availability emp) a)
            | None => false
            end) eqn:Hav; [discriminate|].
  destruct (Api.truthy_opt department
            && Api.truthy_opt (Api.Employee_department emp)
            && negb (Py.contains
                       (Py.lower (or_empty department))
                       (Py.lower (or_empty (Api.Employee_department emp)))))
           eqn:Hdep; [discriminate|].
  clear H. repeat split.
  - destruct skills_list as [|s l]; [now left|]. right.
    apply negb_false_iff, existsb_exists in Hsk as (skill & Hin & Hm).
    exists skill. split; [exact Hin | now apply mem_In].
  - intros n -> Hn. cbn [truthy_int] in Hmin.
    destruct (Z.eqb_spec n 0); [congruence|]. cbn [negb andb] in Hmin.
    now apply Z.ltb_ge.
  - intros n -> Hn. cbn [truthy_int] in Hmax.
    destruct (Z.eqb_spec n 0); [congruence|]. cbn [negb andb] in Hmax.
    destruct (Z.gtb_spec (experience_years emp) n); [discriminate | lia].
  - intros a ->. unfold Api.status_eqb, Api.truthy in Hav.
    destruct (Api.Employee_availability emp), a;
      try reflexivity; vm_compute in Hav; discriminate.
  - intros d ed -> Hd Hed Hne. rewrite Hed in Hdep.
    cbn [Api.truthy_opt or_empty] in Hdep. unfold Api.truthy in Hdep.
    destruct (String.eqb_spec d ""); [congruence|].
    destruct (String.eqb_spec ed ""); [congruence|].
    cbn [negb andb] in Hdep. apply negb_false_iff in Hdep.
    now apply contains_occurs.
Qed.

Section ApiFacts.

Variable vec : Type.
Variable st_encode : string -> vec.
Variable analyze : string -> list string.
Variable tfidf_row : list string -> string -> vec.
Variable cosine : vec -> vec -> Q.
Variable round_1 : Q -> Q.
Variable str_of_exception : exn -> string.

(** X13. Every employee the structured search returns is one of the list and
    meets each filter that is set: one of the requested skills among its
    skills whatever the case of letters, years within the bounds that are
    not 0, the availability, and the department text inside its department
    when it has one.  The result keeps the order of the list, and has at
    most [max_results] employees when that is positive. *)
Theorem structured_search_sound
        (system : RAGSystem vec) (skills_text : option string)
        (min_experience max_experience : option Z)
        (availability : option AvailabilityStatus)
        (department : option string) (max_results : option Z) :
  exists result rest,
    Api.search_employees (Some system) skills_text min_experience
                         max_experience availability department max_results
    = Api.Returns result
    /\ filter (Api.kept (Api.skills_list skills_text) min_experience
                        max_experience availability department)
              (employees system)
       = (result ++ rest)%list
    /\ (forall k, max_results = Some k -> 0 < k -> Py.len result <= k)
    /\ Forall
         (fun emp =>
            In emp (employees system)
            /\ (Api.skills_list skills_text = []
                \/ exists skill,
                    In skill (Api.skills_list skills_text)
                    /\ In (Py.lower skill) (map Py.lower (skills emp)))
            /\ (forall n, min_experience = Some n -> n <> 0 ->
                          n <= experience_years emp)
            /\ (forall n, max_experience = Some n -> n <> 0 ->
                          experience_years emp <= n)
            /\ (forall a, availability = Some a ->
                          Api.Employee_availability emp = a)
            /\ (forall d ed, department = Some d -> d <> "" ->
                             Api.Employee_department emp = Some ed ->
                             ed <> "" ->
                             occurs (Py.lower d) (Py.lower ed)))
         result.
Proof.
  unfold Api.search_employees.
  set (filtered := filter (Api.kept (Api.skills_list skills_text)
                                    min_experience max_experience
                                    availability department)
                          (employees system)).
  assert (Forall
            (fun emp =>
               In emp (employees system)
               /\ Api.kept (Api.skills_list skills_text) min_experience
                           max_experience availability department emp
                  = true) filtered) as Hall.
  { apply Forall_forall. intros emp H. now apply filter_In in H. }
  assert (forall result rest,
             filtered = (result ++ rest)%list ->
             Forall
               (fun emp =>
                  In emp (employees system)
                  /\ Api.kept (Api.skills_list skills_text) min_experience
                              max_experience availability department emp
                     = true) result) as Hpre.
  { intros result rest E. rewrite E in Hall.
    now apply Forall_app in Hall as [H _]. }
  assert (forall k, exists rest,
               filtered = (Py.slice_to k filtered ++ rest)%list) as Hslice.
  { intros k. unfold Py.slice_to. destruct (0 <=? k); eexists;
      symmetry; apply firstn_skipn. }
  destruct max_results as [k|]; cbn [truthy_int].
  - destruct (Z.eqb_spec k 0) as [->|Hk]; cbn [negb].
    + exists filtered, []. rewrite app_nil_r.
      repeat split; [intros k' H; injection H as <-; lia|].
      eapply Forall_impl; [|apply (Hpre filtered []); now rewrite app_nil_r].
      intros emp [Hin Hk]. split; [exact Hin | now apply kept_sound].
    + destruct (Hslice k) as [rest E].
      exists (Py.slice_to k filtered), rest.
      repeat split; [exact E | |].
      * intros k' H Hpos; injection H as <-. apply slice_to_length. lia.
      * eapply Forall_impl; [|apply (Hpre _ rest E)].
        intros emp [Hin Hk']. split; [exact Hin | now apply kept_sound].
  - exists filtered, []. rewrite app_nil_r.
    repeat split; [discriminate|].
    eapply Forall_impl; [|apply (Hpre filtered []); now rewrite app_nil_r].
    intros emp [Hin Hk]. split; [exact Hin | now apply kept_sound].
Qed.

(** X14. A bound of 0 years, a [max_results] of 0, an empty text of skills and
    an empty department count as not given; and an employee without a
    department is never turned away by the filter on departments. *)
Theorem structured_search_unset_values
        (system : RAGSystem vec) (skills_text : option string)
        (min_experience max_experience : option Z)
        (availability : option AvailabilityStatus)
        (department : option string) (max_results : option Z) :
  Api.search_employees (Some system) skills_text (Some 0) max_experience
                       availability department max_results
  = Api.search_employees (Some system) skills_text None max_experience
                         availability department max_results
  /\ Api.search_employees (Some system) skills_text min_experience (Some 0)
                          availability department max_results
     = Api.search_employees (Some system) skills_text min_experience None
                            availability department max_results
  /\ Api.search_employees (Some system) skills_text min_experience
                          max_experience availability department (Some 0)
     = Api.search_employees (Some system) skills_text min_experience
                            max_experience availability department None
  /\ Api.search_employees (Some system) (Some "") min_experience
                          max_experience availability department max_results
     = Api.search_employees (Some system) None min_experience
                            max_experience availability department max_results
  /\ Api.search_employees (Some system) skills_text min_experience
                          max_experience availability (Some "") max_results
     = Api.search_employees (Some system) skills_text min_experience
                            max_experience availability None max_results
  /\ (forall emp,
         Api.truthy_opt (Api.Employee_department emp) = false ->
         Api.kept (Api.skills_list skills_text) min_experience max_experience
                  availability department emp
         = Api.kept (Api.skills_list skills_text) min_experience
                    max_experience availability None emp).
Proof.
  repeat split; try reflexivity.
  intros emp H. unfold Api.kept. rewrite H.
  now rewrite andb_false_r.
Qed.

(** X15. Looking an employee up by id returns the first employee of the list
    with that id, and answers 404 exactly when no employee has it. *)
Theorem get_employee_finds_the_first
        (system : RAGSystem vec) (employee_id : Z) :
  (forall employee,
      Api.get_employee (Some system) employee_id = Api.Returns employee ->
      exists before after,
        employees system = (before ++ employee :: after)%list
        /\ id employee = employee_id
        /\ Forall (fun e => id e <> employee_id) before)
  /\ (Api.get_employee (Some system) employee_id
      = Api.Raises (Api.HTTPException 404 "Employee not found")
      <-> Forall (fun e => id e <> employee_id) (employees system))
  /\ ((exists employee,
          Api.get_employee (Some system) employee_id = Api.Returns employee)
      \/ Api.get_employee (Some system) employee_id
         = Api.Raises (Api.HTTPException 404 "Employee not found")).
Proof.
  unfold Api.get_employee.
  destruct (find (fun emp => id emp =? employee_id) (employees system))
    as [e|] eqn:E.
  - destruct (find_first _ _ _ E) as (before & after & Hl & Hid & Hb).
    apply Z.eqb_eq in Hid. repeat split.
    + intros employee H; injection H as <-. exists before, after.
      repeat split; auto. eapply Forall_impl; [|exact Hb].
      intros y Hy. now apply Z.eqb_neq.
    + discriminate.
    + intros H. rewrite Hl in H. apply Forall_app in H as [_ H].
      inversion H; subst. congruence.
    + left. eauto.
  - repeat split.
    + discriminate.
    + intros _. apply Forall_forall. intros y Hy.
      apply (find_none _ _ E) in Hy. now apply Z.eqb_neq.
    + now right.
Qed.

(** X16. When the ids of the employees are distinct, every employee of the list
    is returned by the lookup of its own id. *)
Theorem get_employee_round_trip
        (system : RAGSystem vec) (employee : Employee) :
  NoDup (map id (employees system)) ->
  In employee (employees system) ->
  Api.get_employee (Some system) (id employee) = Api.Returns employee.
Proof.
  unfold Api.get_employee. generalize (employees system).
  induction l as [|e l IH]; simpl; intros Hnd Hin; [destruct Hin|].
  inversion Hnd as [|? ? Hid Hl]; subst.
  destruct (Z.eqb_spec (id e) (id employee)) as [E|Hne].
  - destruct Hin as [->|Hin]; [reflexivity|].
    exfalso. apply Hid. rewrite E. now apply in_map.
  - destruct Hin as [->|Hin]; [congruence|]. now apply IH.
Qed.

(** X17. Statistics over no employee cannot be computed: the mean divides by
    zero.  That is the state the semantic strategy leaves after a start on
    an empty list. *)
Theorem stats_of_no_employee :
  Api.get_stats round_1 (Api.startup st_encode analyze tfidf_row true [])
  = Api.Raises Api.ZeroDivisionError
  /\ (forall system : RAGSystem vec,
         employees system = [] ->
         Api.get_stats round_1 (Some system)
         = Api.Raises Api.ZeroDivisionError)
  /\ (forall system : RAGSystem vec,
         employees system <> [] ->
         exists stats,
           Api.get_stats round_1 (Some system) = Api.Returns stats
           /\ Api.total_employees stats = Py.len (employees system)).
Proof.
  split; [reflexivity|]. split.
  - intros system H. unfold Api.get_stats. now rewrite H.
  - intros system H. unfold Api.get_stats.
    destruct (Z.eqb_spec (Py.len (employees system)) 0) as [E|E].
    + unfold Py.len in E. destruct (employees system);
        [congruence | simpl in E; lia].
    + eexists. split; reflexivity.
Qed.

(** X18. The skills of the statistics are at most ten, each listed once with
    the number of times it stands in the skills of the employees, by
    descending number; and no skill left out stands more often than one
    that is listed. *)
Theorem top_skills_are_the_most_frequent
        (system : RAGSystem vec) (stats : Api.Stats) :
  Api.get_stats round_1 (Some system) = Api.Returns stats ->
  let all_skills := List.concat (map skills (employees system)) in
  (List.length (Api.top_skills stats) <= 10)%nat
  /\ NoDup (map fst (Api.top_skills stats))
  /\ StronglySorted (fun a b => snd b <= snd a) (Api.top_skills stats)
  /\ (forall skill n,
         In (skill, n) (Api.top_skills stats) ->
         In skill all_skills
         /\ n = Z.of_nat (count_occ string_dec all_skills skill))
  /\ (forall skill n other,
         In (skill, n) (Api.top_skills stats) ->
         In other all_skills ->
         ~ In other (map fst (Api.top_skills stats)) ->
         Z.of_nat (count_occ string_dec all_skills other) <= n).
Proof.
  unfold Api.get_stats.
  destruct (Py.len (employees system) =? 0); [discriminate|].
  intros H; injection H as <-. cbn [Api.top_skills]. cbv zeta.
  set (all_skills := List.concat (map skills (employees system))).
  destruct (count_all_counts all_skills) as (Hnd & Hkeys & Hcount).
  destruct (sorted_by_count_spec (Api.count_all all_skills)) as [Hp Hs].
  set (sorted := Api.sorted_by_count (Api.count_all all_skills)) in *.
  change (Py.slice_to 10 sorted) with (firstn 10 sorted).
  assert (forall x, In x (firstn 10 sorted) -> In x (Api.count_all all_skills))
    as Hin.
  { intros x Hx. apply in_firstn in Hx. now apply (Permutation_in _ Hp). }
  repeat split.
  - apply firstn_le_length.
  - rewrite <- firstn_map. apply NoDup_firstn.
    now apply (Permutation_NoDup (Permutation_map fst (Permutation_sym Hp))).
  - now apply StronglySorted_firstn.
  - apply Hkeys. apply Hin in H. now apply (in_map fst) in H.
  - apply Hcount. now apply Hin.
  - intros skill n other Hl Ho Hno.
    apply Hkeys, in_map_iff in Ho as ([k n'] & Hk & Ho). simpl in Hk. subst k.
    rewrite <- (Hcount _ _ Ho).
    apply (Permutation_in _ (Permutation_sym Hp)) in Ho. fold sorted in Ho.
    rewrite <- (firstn_skipn 10 sorted) in Ho, Hs.
    apply in_app_or in Ho as [Ho|Ho].
    + exfalso. apply Hno. now apply (in_map fst) in Ho.
    + apply (StronglySorted_app_inv _ _ _ Hs (skill, n) (other, n') Hl Ho).
Qed.

(** X19. The departments of the statistics are the departments that employees
    have, each listed once with the number of its employees; the number of
    available employees lies between 0 and the total. *)
Theorem department_distribution_counts
        (system : RAGSystem vec) (stats : Api.Stats) :
  Api.get_stats round_1 (Some system) = Api.Returns stats ->
  let departments :=
    map or_empty (filter Api.truthy_opt
                         (map Api.Employee_department (employees system))) in
  NoDup (map fst (Api.department_distribution stats))
  /\ (forall d, In d (map fst (Api.department_distribution stats))
                <-> In d departments)
  /\ (forall d n, In (d, n) (Api.department_distribution stats) ->
                  n = Z.of_nat (count_occ string_dec departments d))
  /\ Api.total_employees stats = Py.len (employees system)
  /\ 0 <= Api.available_employees stats <= Api.total_employees stats.
Proof.
  unfold Api.get_stats.
  destruct (Py.len (employees system) =? 0); [discriminate|].
  intros H; injection H as <-. cbv zeta.
  cbn [Api.department_distribution Api.total_employees
       Api.available_employees].
  destruct (count_all_counts
              (map or_empty
                   (filter Api.truthy_opt
                           (map Api.Employee_department (employees system)))))
    as (Hnd & Hkeys & Hcount).
  repeat split; auto; try apply Hkeys.
  - unfold Py.len. lia.
  - unfold Py.len. apply Nat2Z.inj_le, filter_length_le.
Qed.

(** X20. When the construction at start-up raises, every route that needs the
    system answers 500, while the root route still reports a healthy
    service, with 0 employees. *)
Theorem failed_startup_leaves_routes_down
        (installed : bool) (employee_data : list Employee) (e : exn)
        (query : string) (max_results : option Z) (employee_id : Z)
        (skills_text : option string)
        (min_experience max_experience : option Z)
        (availability : option AvailabilityStatus)
        (department : option string) :
  RAGSystem_init st_encode analyze tfidf_row installed employee_data
  = Raise e ->
  let rag_system :=
    Api.startup st_encode analyze tfidf_row installed employee_data in
  let down := Api.HTTPException 500 "RAG system not initialized" in
  rag_system = None
  /\ Api.status (Api.root rag_system) = "healthy"
  /\ Api.employees_loaded (Api.root rag_system) = 0
  /\ Api.chat_query st_encode tfidf_row cosine str_of_exception rag_system
                    query max_results = Api.Raises down
  /\ Api.get_all_employees rag_system = Api.Raises down
  /\ Api.search_employees rag_system skills_text min_experience
                          max_experience availability department max_results
     = Api.Raises down
  /\ Api.get_employee rag_system employee_id = Api.Raises down
  /\ Api.get_stats round_1 rag_system = Api.Raises down.
Proof.
  intros H. unfold Api.startup. rewrite H. cbv zeta. repeat split.
Qed.

(** X21. A chat request whose [max_results] is null never gets a response: the
    answer is 500. *)
Theorem chat_without_max_results_fails (system : RAGSystem vec) (query : string) :
  exists e,
    Api.chat_query st_encode tfidf_row cosine str_of_exception (Some system)
                   query None
    = Api.Raises (Api.HTTPException
                    500 ("Error processing query: " ++ str_of_exception e)).
Proof.
  unfold Api.chat_query, Api.respond.
  destruct (query_similarities st_encode tfidf_row cosine system query)
    as [sims|e]; cbn [bind]; eauto.
Qed.

(** X22. On a system built from a non-empty list a chat request gets a response
    for every integer [max_results] and every query without a run of more
    than 4300 digits. *)
Theorem chat_answers_every_integer
        (installed : bool) (employee_data : list Employee)
        (system : RAGSystem vec) (query : string) (max_results : Z) :
  Api.startup st_encode analyze tfidf_row installed employee_data
  = Some system ->
  employee_data <> [] ->
  digits_fit query ->
  exists response,
    Api.chat_query st_encode tfidf_row cosine str_of_exception (Some system)
                   query (Some max_results)
    = Api.Returns response.
Proof.
  unfold Api.startup. intros H Hne Hd.
  destruct (RAGSystem_init st_encode analyze tfidf_row installed employee_data)
    as [s|] eqn:Hi; [|discriminate].
  injection H as ->.
  destruct (extraction_accepts query Hd) as [req Hq].
  destruct (answer_returns _ _ _ _ cosine _ _ _ query max_results req
                           Hi Hne Hq) as [r Hr].
  exists r. unfold Api.chat_query, Api.respond. now rewrite Hr.
Qed.

(** X24. A query whose first number in front of [years experience] has more
    than 4300 digits is refused: the extraction raises the [ValueError] of
    [int], so does [generate_response] on a system built from a non-empty
    list, for every [max_results], and the chat route answers 500. *)
Theorem long_number_is_refused
        (installed : bool) (employee_data : list Employee)
        (system : RAGSystem vec) (query pre digits post : string)
        (max_results : Z) :
  Api.startup st_encode analyze tfidf_row installed employee_data
  = Some system ->
  employee_data <> [] ->
  query = pre ++ digits ++ " years experience" ++ post ->
  no_digit pre = true ->
  all_digits digits = true ->
  Py.max_str_digits < Z.of_nat (String.length digits) ->
  _extract_requirements query = Raise ValueError
  /\ generate_response st_encode tfidf_row cosine system query max_results
     = Raise ValueError
  /\ exists detail,
      Api.chat_query st_encode tfidf_row cosine str_of_exception (Some system)
                     query (Some max_results)
      = Api.Raises (Api.HTTPException
                      500 ("Error processing query: " ++ detail)).
Proof.
  unfold Api.startup. intros H Hne Hq Hp Hd Hl.
  destruct (RAGSystem_init st_encode analyze tfidf_row installed employee_data)
    as [s|] eqn:Hi; [|discriminate].
  injection H as ->.
  pose proof (long_number_raises query pre digits post Hq Hp Hd Hl) as Hr.
  pose proof (answer_raises _ _ _ _ cosine _ _ _ query max_results _
                            Hi Hne Hr) as Ha.
  split; [exact Hr|]. split; [exact Ha|].
  exists (str_of_exception ValueError).
  unfold Api.chat_query, Api.respond. now rewrite Ha.
Qed.

End ApiFacts.

(** * Properties of the dashboard *)

Lemma bump_range (exp a b c d : Z) :
  Api.bump (Dashboard.range_of exp)
           [("0-2 years", a); ("3-5 years", b); ("6-8 years", c);
            ("9+ years", d)]
  = [("0-2 years", a + (if exp <=? 2 then 1 else 0));
     ("3-5 years", b + (if (2 <? exp) && (exp <=? 5) then 1 else 0));
     ("6-8 years", c + (if (5 <? exp) && (exp <=? 8) then 1 else 0));
     ("9+ years", d + (if 8 <? exp then 1 else 0))].
Proof.
  unfold Dashboard.range_of.
  destruct (Z.leb_spec exp 2); destruct (Z.ltb_spec 2 exp); try lia;
    destruct (Z.leb_spec exp 5); destruct (Z.ltb_spec 5 exp); try lia;
    destruct (Z.leb_spec exp 8); destruct (Z.ltb_spec 8 exp); try lia;
    vm_compute Api.bump; cbn [andb]; now rewrite ?Z.add_0_r.
Qed.

Lemma len_filter_cons {A} (f : A -> bool) (x : A) (l : list A) :
  Py.len (filter f (x :: l)) = (if f x then 1 else 0) + Py.len (filter f l).
Proof.
  unfold Py.len. simpl. destruct (f x); [|reflexivity].
  cbn [List.length]. lia.
Qed.

Lemma experience_ranges_from (employees : list Employee) (a b c d : Z) :
  fold_left (fun ranges emp =>
               Api.bump (Dashboard.range_of (experience_years emp)) ranges)
            employees
            [("0-2 years", a); ("3-5 years", b); ("6-8 years", c);
             ("9+ years", d)]
  = [("0-2 years",
      a + Py.len (filter (fun e => experience_years e <=? 2) employees));
     ("3-5 years",
      b + Py.len (filter (fun e => (2 <? experience_years e)
                                   && (experience_years e <=? 5)) employees));
     ("6-8 years",
      c + Py.len (filter (fun e => (5 <? experience_years e)
                                   && (experience_years e <=? 8)) employees));
     ("9+ years",
      d + Py.len (filter (fun e => 8 <? experience_years e) employees))].
Proof.
  revert a b c d. induction employees as [|e l IH]; intros a b c d.
  - unfold Py.len. simpl. now rewrite !Z.add_0_r.
  - cbn [fold_left]. rewrite bump_range, IH, !len_filter_cons.
    now rewrite !Z.add_assoc.
Qed.

(** X23. The chart of experience counts every employee in exactly one of its
    four ranges: the ranges stay in their order, each holds the number of
    employees whose years fall in it (negative years in the first), and the
    four numbers add up to the number of employees. *)
Theorem experience_ranges_partition (employees : list Employee) :
  exists a b c d,
    Dashboard.experience_ranges employees
    = [("0-2 years", a); ("3-5 years", b); ("6-8 years", c); ("9+ years", d)]
    /\ a = Py.len (filter (fun e => experience_years e <=? 2) employees)
    /\ b = Py.len (filter (fun e => (2 <? experience_years e)
                                    && (experience_years e <=? 5)) employees)
    /\ c = Py.len (filter (fun e => (5 <? experience_years e)
                                    && (experience_years e <=? 8)) employees)
    /\ d = Py.len (filter (fun e => 8 <? experience_years e) employees)
    /\ a + b + c + d = Py.len employees.
Proof.
  unfold Dashboard.experience_ranges. rewrite experience_ranges_from.
  do 4 eexists. split; [reflexivity|]. repeat split; try (simpl; reflexivity).
  induction employees as [|e l IH]; [reflexivity|].
  rewrite !len_filter_cons.
  replace (Py.len (e :: l)) with (1 + Py.len l)
    by (unfold Py.len; cbn [List.length]; lia).
  destruct (Z.leb_spec (experience_years e) 2);
    destruct (Z.ltb_spec 2 (experience_years e));
    destruct (Z.leb_spec (experience_years e) 5);
    destruct (Z.ltb_spec 5 (experience_years e));
    destruct (Z.leb_spec (experience_years e) 8);
    destruct (Z.ltb_spec 8 (experience_years e));
    try lia; cbn [andb]; lia.
Qed.

(** * The further properties on the samples *)

Lemma search_returns_first_passing_witness :
  exists sims req res scs,
    query_similarities Sample.encode Sample.row Sample.overlap Sample.lexical
      "python, 3 years experience" = Ok sims
    /\ _extract_requirements "python, 3 years experience" = Ok req
    /\ Sample.search Sample.lexical "python, 3 years experience" 1
       = Ok (res, scs)
    /\ let examined := firstn (Z.to_nat (1 * 2)) (ranking sims) in
       let found := firstn (Z.to_nat 1)
                           (passing Sample.staff req examined) in
       let indices :=
         match found with
         | [] => if false then [] else firstn (Z.to_nat 1) (ranking sims)
         | _ => found
         end in
       Forall2 (fun idx e => nth_error Sample.staff idx = Some e) indices res
       /\ Forall2 (fun idx s => nth_error sims idx = Some s) indices scs.
Proof.
  apply (search_returns_first_passing
           _ Sample.encode Sample.words Sample.row Sample.overlap
           false Sample.staff Sample.lexical "python, 3 years experience" 1).
  - reflexivity.
  - discriminate.
  - lia.
  - vm_compute. discriminate.
Defined.

Lemma scores_never_increase_witness :
  exists res scs,
    Sample.search Sample.semantic "python aws developer" 3 = Ok (res, scs)
    /\ List.length scs = List.length res
    /\ StronglySorted (fun a b => (b <= a)%Q) scs.
Proof.
  apply (scores_never_increase
           _ Sample.encode Sample.words Sample.row Sample.overlap
           true Sample.staff Sample.semantic "python aws developer" 3).
  - reflexivity.
  - discriminate.
  - lia.
  - vm_compute. discriminate.
Defined.

Lemma matches_at_distinct_positions_witness :
  exists positions res scs,
    Sample.search Sample.lexical "python aws developer" 5 = Ok (res, scs)
    /\ Forall2 (fun idx e => nth_error Sample.staff idx = Some e)
               positions res
    /\ NoDup positions
    /\ Forall (fun e => In e Sample.staff) res
    /\ (List.length res <= List.length Sample.staff)%nat.
Proof.
  apply (matches_at_distinct_positions
           _ Sample.encode Sample.words Sample.row Sample.overlap
           false Sample.staff Sample.lexical "python aws developer" 5).
  - reflexivity.
  - discriminate.
  - lia.
  - vm_compute. discriminate.
Defined.

Lemma lexical_search_is_never_empty_witness :
  exists r res scs,
    Sample.search Sample.lexical "rust, 20 years experience" 2 = Ok (res, scs)
    /\ res <> []
    /\ Sample.answer Sample.lexical "rust, 20 years experience" 2 = Ok r
    /\ matched_employees r = res.
Proof.
  apply (lexical_search_is_never_empty
           _ Sample.encode Sample.words Sample.row Sample.overlap
           Sample.staff Sample.lexical "rust, 20 years experience" 2).
  - reflexivity.
  - lia.
  - vm_compute. discriminate.
Defined.

Lemma plain_query_gets_the_ranking_witness :
  exists sims res scs,
    query_similarities Sample.encode Sample.row Sample.overlap Sample.semantic
      "hello" = Ok sims
    /\ Sample.search Sample.semantic "hello" 2 = Ok (res, scs)
    /\ Forall2 (fun idx e => nth_error Sample.staff idx = Some e)
               (firstn (Z.to_nat 2) (ranking sims)) res
    /\ Forall2 (fun idx s => nth_error sims idx = Some s)
               (firstn (Z.to_nat 2) (ranking sims)) scs.
Proof.
  apply (plain_query_gets_the_ranking
           _ Sample.encode Sample.words Sample.row Sample.overlap
           true Sample.staff Sample.semantic "hello" 2).
  - reflexivity.
  - discriminate.
  - lia.
  - reflexivity.
  - intros skill H Ho. apply contains_occurs in Ho. simpl in H.
    repeat (destruct H as [<-|H]; [vm_compute in Ho; discriminate|]).
    destruct H.
Defined.

Lemma confidence_within_unit_witness :
  exists r,
    generate_response Sample.encode Sample.row Office.flat Office.system
                      "python" 2 = Ok r
    /\ (0 <= confidence_score r <= 1)%Q.
Proof.
  eexists. split; [vm_compute; reflexivity|].
  apply (confidence_within_unit
           _ Sample.encode Sample.words Sample.row Office.flat
           true Office.staff Office.system "python" 2).
  - intros x y. split; vm_compute; discriminate.
  - reflexivity.
  - vm_compute. reflexivity.
Defined.

Lemma semantic_non_positive_at_most_one_witness :
  exists res scs,
    Sample.search Sample.semantic "hello" (-3) = Ok (res, scs)
    /\ (List.length res <= 1)%nat
    /\ Forall (fun e => In e Sample.staff) res.
Proof.
  apply (semantic_non_positive_at_most_one
           _ Sample.encode Sample.words Sample.row Sample.overlap
           Sample.staff Sample.semantic "hello" (-3)).
  - reflexivity.
  - discriminate.
  - lia.
  - vm_compute. discriminate.
Defined.

Lemma get_employee_round_trip_witness :
  Api.get_employee (Some Office.system) (id Office.ben)
  = Api.Returns Office.ben.
Proof.
  apply (get_employee_round_trip _ Office.system Office.ben).
  - repeat constructor; simpl; intuition discriminate.
  - simpl. auto.
Defined.

Lemma top_skills_are_the_most_frequent_witness :
  exists stats,
    Api.get_stats Office.unrounded (Some Office.system) = Api.Returns stats
    /\ Api.top_skills stats = [("Python", 2); ("AWS", 2); ("Java", 1)]
    /\ let all_skills := List.concat (map skills (employees Office.system)) in
       (List.length (Api.top_skills stats) <= 10)%nat
       /\ NoDup (map fst (Api.top_skills stats))
       /\ StronglySorted (fun a b => snd b <= snd a) (Api.top_skills stats)
       /\ (forall skill n,
              In (skill, n) (Api.top_skills stats) ->
              In skill all_skills
              /\ n = Z.of_nat (count_occ string_dec all_skills skill))
       /\ (forall skill n other,
              In (skill, n) (Api.top_skills stats) ->
              In other all_skills ->
              ~ In other (map fst (Api.top_skills stats)) ->
              Z.of_nat (count_occ string_dec all_skills other) <= n).
Proof.
  eexists. split; [reflexivity|]. split; [reflexivity|].
  apply (top_skills_are_the_most_frequent
           _ Office.unrounded Office.system).
  reflexivity.
Defined.

Lemma department_distribution_counts_witness :
  exists stats,
    Api.get_stats Office.unrounded (Some Office.system) = Api.Returns stats
    /\ Api.department_distribution stats = [("Engineering", 2)]
    /\ let departments :=
         map or_empty
             (filter Api.truthy_opt
                     (map Api.Employee_department
                          (employees Office.system))) in
       NoDup (map fst (Api.department_distribution stats))
       /\ (forall d, In d (map fst (Api.department_distribution stats))
                     <-> In d departments)
       /\ (forall d n, In (d, n) (Api.department_distribution stats) ->
                       n = Z.of_nat (count_occ string_dec departments d))
       /\ Api.total_employees stats = Py.len (employees Office.system)
       /\ 0 <= Api.available_employees stats <= Api.total_employees stats.
Proof.
  eexists. split; [reflexivity|]. split; [reflexivity|].
  apply (department_distribution_counts
           _ Office.unrounded Office.system).
  reflexivity.
Defined.

Lemma failed_startup_leaves_routes_down_witness :
  let rag_system := Api.startup Sample.encode Sample.words Sample.row false []
  in
  let down := Api.HTTPException 500 "RAG system not initialized" in
  rag_system = None
  /\ Api.status (Api.root rag_system) = "healthy"
  /\ Api.employees_loaded (Api.root rag_system) = 0
  /\ Api.chat_query Sample.encode Sample.row Sample.overlap Office.class_name
                    rag_system "python" (Some 5) = Api.Raises down
  /\ Api.get_all_employees rag_system = Api.Raises down
  /\ Api.search_employees rag_system (Some "Python") None None None None
                          (Some 5)
     = Api.Raises down
  /\ Api.get_employee rag_system 1 = Api.Raises down
  /\ Api.get_stats Office.unrounded rag_system = Api.Raises down.
Proof.
  apply (failed_startup_leaves_routes_down
           _ Sample.encode Sample.words Sample.row Sample.overlap
           Office.unrounded Office.class_name false [] ValueError).
  reflexivity.
Defined.

Lemma chat_answers_every_integer_witness :
  exists response,
    Api.chat_query Sample.encode Sample.row Sample.overlap Office.class_name
                   (Some Office.system) "python" (Some (-4))
    = Api.Returns response.
Proof.
  apply (chat_answers_every_integer
           _ Sample.encode Sample.words Sample.row Sample.overlap
           Office.class_name true Office.staff Office.system "python" (-4)).
  - reflexivity.
  - discriminate.
  - vm_compute. discriminate.
Defined.


Lemma long_number_is_refused_witness :
  let query := "who has " ++ copies 4301 "7" ++ " years experience" ++ "?" in
  _extract_requirements query = Raise ValueError
  /\ generate_response Sample.encode Sample.row Sample.overlap Office.system
                       query 5
     = Raise ValueError
  /\ exists detail,
      Api.chat_query Sample.encode Sample.row Sample.overlap Office.class_name
                     (Some Office.system) query (Some 5)
      = Api.Raises (Api.HTTPException
                      500 ("Error processing query: " ++ detail)).
Proof.
  apply (long_number_is_refused
           _ Sample.encode Sample.words Sample.row Sample.overlap
           Office.class_name true Office.staff Office.system
           ("who has " ++ copies 4301 "7" ++ " years experience" ++ "?")
           "who has " (copies 4301 "7") "?" 5).
  - reflexivity.
  - discriminate.
  - reflexivity.
  - reflexivity.
  - vm_compute. reflexivity.
  - vm_compute. reflexivity.
Defined.

(** The structured search on the office: skills are matched whatever the
    case of their letters, and the department by a part of its name. *)
Example structured_search_on_office :
  Api.search_employees (Some Office.system) (Some "python , aws") (Some 3)
                       None None (Some "engineer") (Some 10)
  = Api.Returns [Office.ana; Office.cy]
  /\ Api.search_employees (Some Office.system) None None (Some 0) None None
                          (Some 0)
     = Api.Returns Office.staff.
Proof. split; reflexivity. Qed.
